(** * backtrader/plot/plot.py: the chart layout and composition engine

    A shallow embedding of [PInfo] and [Plot] (classification of the
    plottable objects, row planning, panel allocation, per-line drawing,
    price/volume composition and legend assembly), and the properties of
    the specification proved or refuted on it.

    Conventions of the embedding:
    - Python objects used as dictionary keys are represented by their
      identity ([objid]); matplotlib axes by their index in the figure.
    - The samples of a series are [pyfloat]: NaN or an exact rational; the
      code only tests them for NaN and prints them.  Z-orders, with which
      the code computes, are binary64 floats ([float]), and so are the
      numbers passed on as keyword arguments.
    - Python exceptions are the [Raise] results of the monad [M]; the
      recursion of [plotind] through the overlay groups is bounded by the
      interpreter's recursion limit, here the [fuel] argument.
    - matplotlib, the draw adapters of [finance.py] and [TimeFrame] are the
      external collaborators: the figure is a record of the draw commands
      received, and what the adapters decide on their own (the kind and the
      default z-order of an artifact, the time frame names) is the
      [Backend] parameter. *)

From stdpp Require Import base option list gmap strings pretty.
From Stdlib Require Import QArith Qabs Ascii Floats.

#[local] Open Scope string_scope.
#[local] Open Scope list_scope.
#[local] Open Scope Z_scope.

(* 1.0001 and 0.9999 stand for the nearest doubles, as in Python. *)
#[local] Set Warnings "-inexact-float".

(** ** Python values *)

(** Object identities and axes handles. *)
Abbreviation objid := positive (only parsing).
Abbreviation axid := nat (only parsing).

Inductive pyfloat :=
  | NaN
  | Fl (q : Q).

Definition isnan (v : pyfloat) : bool :=
  match v with NaN => true | Fl _ => false end.

Inductive pyval :=
  | VNone
  | VBool (b : bool)
  | VNum (f : float)
  | VStr (s : string).

Inductive PyErr :=
  | IndexError
  | KeyError
  | ValueError
  | NameError
  | ZeroDivisionError
  | RecursionError.

Inductive Res (A : Type) :=
  | Ok (a : A)
  | Raise (e : PyErr).
Arguments Ok {A} a.
Arguments Raise {A} e.

(** [l[-1]] *)
Definition last_item {A} (l : list A) : Res A :=
  match last l with
  | Some a => Ok a
  | None => Raise IndexError
  end.

(** ** The [%] formatting of floats

    ['%.2f' % y] and ['%2.f' % y]: the value rounded to the given number
    of decimals (ties to even), a minus sign for negative values, left
    padding with blanks up to the width. *)

Definition round_half_even (q : Q) : Z :=
  let n := Qnum q in
  let d := Z.pos (Qden q) in
  let fl := n / d in
  let r2 := 2 * (n mod d) in
  if r2 <? d then fl
  else if d <? r2 then fl + 1
  else if Z.even fl then fl else fl + 1.

Fixpoint repeat_string (n : nat) (s : string) : string :=
  match n with
  | O => ""
  | S n' => s +:+ repeat_string n' s
  end.

Definition pad_left (width : nat) (fill s : string) : string :=
  repeat_string (width - String.length s)%nat fill +:+ s.

Definition fmt_fixed (prec : nat) (q : Q) : string :=
  let scale := 10 ^ Z.of_nat prec in
  let scaled := round_half_even (Qabs q * inject_Z scale)%Q in
  let sign := if Qnum q <? 0 then "-" else "" in
  let frac :=
    match prec with
    | O => ""
    | _ => "." +:+ pad_left prec "0" (pretty (scaled mod scale))
    end in
  sign +:+ pretty (scaled / scale) +:+ frac.

Definition fmt_float (width prec : nat) (v : pyfloat) : string :=
  pad_left width " "
    match v with
    | NaN => "nan"
    | Fl q => fmt_fixed prec q
    end.

(** ['%.2f' % v] *)
Definition fmt_2f (v : pyfloat) : string := fmt_float 0 2 v.
(** ['%2.f' % v] *)
Definition fmt_2_0f (v : pyfloat) : string := fmt_float 2 0 v.
(** ['%d' % n] *)
Definition fmt_d (n : Z) : string := pretty n.

(** ** The style configuration ([PlotScheme], read only) *)

Record PlotScheme := {
  rowsmajor : Z;
  rowsminor : Z;
  volume : bool;
  voloverlay : bool;
  voltrans : float;
  volscaling : Q;
  volup : string;
  voldown : string;
  zdown : bool;
  style : string;
  loc : string;
  barup : string;
  bardown : string;
  grid : bool;
  legendind : bool;
  legendindloc : string;
  hlinescolor : string;
  plotdist : Q;
  tickrotation : Z;
  ytight : bool;
  subtxtsize : Q;
  sch_color : Z → string;
}.

(** ** The figure: what matplotlib has been asked to draw *)

Inductive ArtistKind := Line2D | Patch | Collection.

(** A drawn artifact: the function that drew it ([plot], [bar],
    [plot_ohlc], ...), its kind, the series drawn (the closes for a price
    plot), its keyword arguments as received, and the z-order it answers
    to [get_zorder()].  Y-limits and y tick locators are left to the
    renderer and are not recorded. *)
Record Artist := {
  art_method : string;
  art_kind : ArtistKind;
  art_data : list pyfloat;
  art_kwargs : gmap string pyval;
  art_zorder : float;
}.

Record TextTag := {
  tx_x : Z;
  tx_y : pyfloat;
  tx_text : string;
  tx_facecolor : string;
  tx_edgecolor : string;
  tx_alpha : Q;
  tx_fontsize : Q;
  tx_zorder : float;
}.

Record Legend := {
  lg_handles : list Artist;
  lg_labels : list string;
  lg_loc : string;
  lg_title : option string;
}.

Inductive AxesOrigin :=
  | Subplot2grid (nrows row rowspan : Z) (sharex : option axid)
  | Twinx (base : axid).

Record Axes := {
  ax_origin : AxesOrigin;
  ax_grid : option bool;
  ax_artists : list Artist;
  ax_texts : list TextTag;
  ax_hlines : list pyfloat;
  ax_yticks : option (list pyfloat);
  ax_legend : option Legend;
  ax_xformatter : option (list Q);
  ax_xlabels_visible : bool;
  ax_xlabels_rotation : option Z;
}.

Record Figure := {
  fig_axes : list Axes;
  fig_hspace : option Q;
  fig_autoscale : option string;
}.

(** What the external drawing code decides on its own. *)
Record Backend := {
  bk_kind : string → ArtistKind;
  bk_zorder : string → float;
  bk_tfname : Z → Z → string;
}.

(** ** [PInfo] *)

Inductive axkey :=
  | KObj (o : objid)
  | KVolume (o : objid).

#[global] Instance axkey_eq_dec : EqDecision axkey.
Proof. solve_decision. Defined.

Record PInfo := {
  sch : PlotScheme;
  nrows : Z;
  row : Z;
  xreal : list Q;
  xlen : Z;
  sharex : option axid;
  daxis : list (axkey * axid);
  zorder : gmap axid float;
  coloridx : gmap axid Z;
}.

Definition PInfo_init (s : PlotScheme) : PInfo :=
  {| sch := s; nrows := 0; row := 0; xreal := []; xlen := 0;
     sharex := None; daxis := []; zorder := ∅; coloridx := ∅ |}.

(** [self.coloridx[ax]] of the [defaultdict(lambda: -1)] *)
Definition coloridx_get (p : PInfo) (ax : axid) : Z :=
  default (-1) (coloridx p !! ax).

Definition nextcolor (p : PInfo) (ax : axid) : Z * PInfo :=
  let c := coloridx_get p ax + 1 in
  (c, {| sch := sch p; nrows := nrows p; row := row p; xreal := xreal p;
         xlen := xlen p; sharex := sharex p; daxis := daxis p;
         zorder := zorder p; coloridx := <[ax := c]> (coloridx p) |}).

Definition color (p : PInfo) (ax : axid) : string :=
  sch_color (sch p) (coloridx_get p ax).

Definition zordercur (p : PInfo) (ax : axid) : Res float :=
  match zorder p !! ax with
  | Some z => Ok z
  | None => Raise KeyError
  end.

Definition zordernext (p : PInfo) (ax : axid) : Res float :=
  match zorder p !! ax with
  | Some z =>
      if zdown (sch p) then Ok (PrimFloat.mul z 0.9999)
      else Ok (PrimFloat.mul z 1.0001)
  | None => Raise KeyError
  end.

(** ** The strategy's plottable objects (read only during composition) *)

(** [x._clock]: a data feed or indicator, or a stub ([LineSeriesStub])
    whose [owner] attribute points to the data. *)
Inductive clockref :=
  | ClockObj (o : objid)
  | ClockStub (stub owner : objid).

(** [getattr(x._clock, 'owner', x._clock)] *)
Definition clock_owner (c : clockref) : objid :=
  match c with
  | ClockObj o => o
  | ClockStub _ owner => owner
  end.

(** [getattr(ind.plotlines, linealias)]: the directives starting with an
    underscore, and the others ([_getkwargs(skip_=True)]). *)
Record LinePlotInfo := {
  lp_plotskip : bool;
  lp_samecolor : bool;
  lp_method : option string;
  lp_kwargs : gmap string pyval;
}.

Record Line := {
  linealias : string;
  line_plot : list pyfloat;
  lineplotinfo : LinePlotInfo;
}.

Record PlotInfo := {
  pi_plot : bool;
  pi_plotskip : bool;
  pi_subplot : bool;
  pi_plotabove : bool;
  pi_plotlinelabels : bool;
  pi_plotlegend : bool;
  pi_plotyticks : option (list pyfloat);
  pi_plothlines : list pyfloat;
}.

(** An observer or an indicator with plot metadata. *)
Record Plottable := {
  oid : objid;
  clock : clockref;
  plotinfo : PlotInfo;
  plotlabel : string;
  lines : list Line;
}.

(** An entry of [strategy.getindicators()]: [hasattr(x, 'plotinfo')] or
    not (the [LineSingle] derived classes). *)
Inductive IndEntry :=
  | IndPlot (x : Plottable)
  | IndNoPlotinfo (o : objid).

(** A data feed: [_name] (when present and not empty), [_timeframe] and
    [_compression] (when both are present), and its five series. *)
Record Data := {
  d_id : objid;
  d_name : option string;
  d_tf : option (Z * Z);
  d_open : list pyfloat;
  d_high : list pyfloat;
  d_low : list pyfloat;
  d_close : list pyfloat;
  d_volume : list pyfloat;
}.

Record Strategy := {
  datas : list Data;
  getobservers : list Plottable;
  getindicators : list IndEntry;
  clock_datetime : list Q;
}.

(** ** [Plot.sortdataindicators] *)

Record Groups := {
  dplotstop : list Plottable;
  dplotsup : gmap objid (list Plottable);
  dplotsdown : gmap objid (list Plottable);
  dplotsover : gmap objid (list Plottable);
}.

(** [d[key]] of a [defaultdict(list)] *)
Definition dget (d : gmap objid (list Plottable)) (key : objid) : list Plottable :=
  default [] (d !! key).

(** [d[key].append(x)] *)
Definition dappend (d : gmap objid (list Plottable)) (key : objid) (x : Plottable)
  : gmap objid (list Plottable) :=
  <[key := dget d key ++ [x]]> d.

Definition Groups_init : Groups :=
  {| dplotstop := []; dplotsup := ∅; dplotsdown := ∅; dplotsover := ∅ |}.

Definition not_plotted (x : Plottable) : bool :=
  negb (pi_plot (plotinfo x)) || pi_plotskip (plotinfo x).

Definition sort_observer (g : Groups) (x : Plottable) : Groups :=
  if not_plotted x then g
  else if pi_subplot (plotinfo x) then
    {| dplotstop := dplotstop g ++ [x]; dplotsup := dplotsup g;
       dplotsdown := dplotsdown g; dplotsover := dplotsover g |}
  else
    let key := clock_owner (clock x) in
    {| dplotstop := dplotstop g; dplotsup := dplotsup g;
       dplotsdown := dplotsdown g;
       dplotsover := dappend (dplotsover g) key x |}.

Definition sort_indicator (g : Groups) (e : IndEntry) : Groups :=
  match e with
  | IndNoPlotinfo _ => g
  | IndPlot x =>
      if not_plotted x then g
      else
        let key := clock_owner (clock x) in
        if pi_subplot (plotinfo x) then
          if pi_plotabove (plotinfo x) then
            {| dplotstop := dplotstop g; dplotsup := dappend (dplotsup g) key x;
               dplotsdown := dplotsdown g; dplotsover := dplotsover g |}
          else
            {| dplotstop := dplotstop g; dplotsup := dplotsup g;
               dplotsdown := dappend (dplotsdown g) key x;
               dplotsover := dplotsover g |}
        else
          {| dplotstop := dplotstop g; dplotsup := dplotsup g;
             dplotsdown := dplotsdown g;
             dplotsover := dappend (dplotsover g) key x |}
  end.

Definition sortdataindicators (strategy : Strategy) : Groups :=
  let g := foldl sort_observer Groups_init (getobservers strategy) in
  foldl sort_indicator g (getindicators strategy).

(** ** [Plot.calcrows] *)

(** [sum(len(v) for v in d.values())] *)
Definition sum_len (d : gmap objid (list Plottable)) : Z :=
  map_fold (λ _ v acc, Z.of_nat (length v) + acc) 0 d.

Definition calcrows (p : PInfo) (g : Groups) (strategy : Strategy) : PInfo :=
  let rowsmajor := rowsmajor (sch p) in
  let rowsminor := rowsminor (sch p) in
  let nrows := 0 in
  let nrows := nrows + Z.of_nat (length (datas strategy)) * rowsmajor in
  let nrows :=
    if volume (sch p) && negb (voloverlay (sch p))
    then nrows + Z.of_nat (length (datas strategy)) * rowsminor
    else nrows in
  let nrows := nrows + Z.of_nat (length (dplotstop g)) * rowsminor in
  let nrows := nrows + sum_len (dplotsup g) in
  let nrows := nrows + sum_len (dplotsdown g) in
  let xreal := clock_datetime strategy in
  {| sch := sch p; nrows := nrows; row := row p; xreal := xreal;
     xlen := Z.of_nat (length xreal); sharex := sharex p; daxis := daxis p;
     zorder := zorder p; coloridx := coloridx p |}.

(** ** The run state ([self] and the figure) and its monad *)

Record Plot := {
  pinf : PInfo;
  groups : Groups;
  fig : Figure;
}.

Definition M (A : Type) : Type := Plot → Res (A * Plot).

#[global] Instance Res_ret : MRet Res := λ A a, Ok a.
#[global] Instance Res_bind : MBind Res := λ A B f r,
  match r with
  | Ok a => f a
  | Raise e => Raise e
  end.

#[global] Instance M_ret : MRet M := λ A a s, Ok (a, s).
#[global] Instance M_bind : MBind M := λ A B f m s,
  match m s with
  | Ok (a, s') => f a s'
  | Raise e => Raise e
  end.

Definition raise {A} (e : PyErr) : M A := λ _, Raise e.

Definition lift {A} (r : Res A) : M A := λ s,
  match r with
  | Ok a => Ok (a, s)
  | Raise e => Raise e
  end.

Definition gets {A} (f : Plot → A) : M A := λ s, Ok (f s, s).
Definition modify (f : Plot → Plot) : M unit := λ s, Ok (tt, f s).

(** [for a in l: f(a)] *)
Fixpoint forM_ {A} (l : list A) (f : A → M unit) : M unit :=
  match l with
  | [] => mret tt
  | a :: l' => f a ;; forM_ l' f
  end.

(** [for i, a in enumerate(l, start): f(i, a)] *)
Fixpoint forM_from {A} (start : nat) (l : list A) (f : nat → A → M unit) : M unit :=
  match l with
  | [] => mret tt
  | a :: l' => f start a ;; forM_from (S start) l' f
  end.

(** *** Field updates *)

Definition set_pinf (f : PInfo → PInfo) (s : Plot) : Plot :=
  {| pinf := f (pinf s); groups := groups s; fig := fig s |}.

Definition set_axes (f : list Axes → list Axes) (s : Plot) : Plot :=
  {| pinf := pinf s; groups := groups s;
     fig := {| fig_axes := f (fig_axes (fig s));
               fig_hspace := fig_hspace (fig s);
               fig_autoscale := fig_autoscale (fig s) |} |}.

Definition set_hspace (h : Q) (s : Plot) : Plot :=
  {| pinf := pinf s; groups := groups s;
     fig := {| fig_axes := fig_axes (fig s);
               fig_hspace := Some h;
               fig_autoscale := fig_autoscale (fig s) |} |}.

Definition set_autoscale (axis : string) (s : Plot) : Plot :=
  {| pinf := pinf s; groups := groups s;
     fig := {| fig_axes := fig_axes (fig s);
               fig_hspace := fig_hspace (fig s);
               fig_autoscale := Some axis |} |}.

(** An operation on the axes [ax] of the figure. *)
Definition on_axes (ax : axid) (f : Axes → Axes) : M unit :=
  modify (set_axes (alter f ax)).

Definition set_zorder (ax : axid) (z : float) (p : PInfo) : PInfo :=
  {| sch := sch p; nrows := nrows p; row := row p; xreal := xreal p;
     xlen := xlen p; sharex := sharex p; daxis := daxis p;
     zorder := <[ax := z]> (zorder p); coloridx := coloridx p |}.

Definition new_axes (o : AxesOrigin) (g : option bool) : Axes :=
  {| ax_origin := o; ax_grid := g; ax_artists := []; ax_texts := [];
     ax_hlines := []; ax_yticks := None; ax_legend := None;
     ax_xformatter := None; ax_xlabels_visible := true;
     ax_xlabels_rotation := None |}.

Definition add_artist (a : Artist) (x : Axes) : Axes :=
  {| ax_origin := ax_origin x; ax_grid := ax_grid x;
     ax_artists := ax_artists x ++ [a]; ax_texts := ax_texts x;
     ax_hlines := ax_hlines x; ax_yticks := ax_yticks x;
     ax_legend := ax_legend x; ax_xformatter := ax_xformatter x;
     ax_xlabels_visible := ax_xlabels_visible x;
     ax_xlabels_rotation := ax_xlabels_rotation x |}.

Definition add_text (t : TextTag) (x : Axes) : Axes :=
  {| ax_origin := ax_origin x; ax_grid := ax_grid x;
     ax_artists := ax_artists x; ax_texts := ax_texts x ++ [t];
     ax_hlines := ax_hlines x; ax_yticks := ax_yticks x;
     ax_legend := ax_legend x; ax_xformatter := ax_xformatter x;
     ax_xlabels_visible := ax_xlabels_visible x;
     ax_xlabels_rotation := ax_xlabels_rotation x |}.

Definition add_hline (h : pyfloat) (x : Axes) : Axes :=
  {| ax_origin := ax_origin x; ax_grid := ax_grid x;
     ax_artists := ax_artists x; ax_texts := ax_texts x;
     ax_hlines := ax_hlines x ++ [h]; ax_yticks := ax_yticks x;
     ax_legend := ax_legend x; ax_xformatter := ax_xformatter x;
     ax_xlabels_visible := ax_xlabels_visible x;
     ax_xlabels_rotation := ax_xlabels_rotation x |}.

Definition set_yticks (t : option (list pyfloat)) (x : Axes) : Axes :=
  {| ax_origin := ax_origin x; ax_grid := ax_grid x;
     ax_artists := ax_artists x; ax_texts := ax_texts x;
     ax_hlines := ax_hlines x; ax_yticks := t;
     ax_legend := ax_legend x; ax_xformatter := ax_xformatter x;
     ax_xlabels_visible := ax_xlabels_visible x;
     ax_xlabels_rotation := ax_xlabels_rotation x |}.

Definition set_legend (l : Legend) (x : Axes) : Axes :=
  {| ax_origin := ax_origin x; ax_grid := ax_grid x;
     ax_artists := ax_artists x; ax_texts := ax_texts x;
     ax_hlines := ax_hlines x; ax_yticks := ax_yticks x;
     ax_legend := Some l; ax_xformatter := ax_xformatter x;
     ax_xlabels_visible := ax_xlabels_visible x;
     ax_xlabels_rotation := ax_xlabels_rotation x |}.

Definition set_xformatter (xs : list Q) (x : Axes) : Axes :=
  {| ax_origin := ax_origin x; ax_grid := ax_grid x;
     ax_artists := ax_artists x; ax_texts := ax_texts x;
     ax_hlines := ax_hlines x; ax_yticks := ax_yticks x;
     ax_legend := ax_legend x; ax_xformatter := Some xs;
     ax_xlabels_visible := ax_xlabels_visible x;
     ax_xlabels_rotation := ax_xlabels_rotation x |}.

(** [setp(ax.get_xticklabels(), visible=v)] and, when given, [rotation=r] *)
Definition setp_xticklabels (v : bool) (r : option Z) (x : Axes) : Axes :=
  {| ax_origin := ax_origin x; ax_grid := ax_grid x;
     ax_artists := ax_artists x; ax_texts := ax_texts x;
     ax_hlines := ax_hlines x; ax_yticks := ax_yticks x;
     ax_legend := ax_legend x; ax_xformatter := ax_xformatter x;
     ax_xlabels_visible := v;
     ax_xlabels_rotation :=
       match r with Some _ => r | None => ax_xlabels_rotation x end |}.

(** *** Python containers *)

(** [d[k] = v] on an [OrderedDict]: a key already present keeps its place *)
Fixpoint odict_set (d : list (axkey * axid)) (k : axkey) (v : axid)
  : list (axkey * axid) :=
  match d with
  | [] => [(k, v)]
  | (k', v') :: d' =>
      if decide (k' = k) then (k, v) :: d'
      else (k', v') :: odict_set d' k v
  end.

(** [d[k]] *)
Fixpoint odict_get (d : list (axkey * axid)) (k : axkey) : Res axid :=
  match d with
  | [] => Raise KeyError
  | (k', v') :: d' => if decide (k' = k) then Ok v' else odict_get d' k
  end.

(** [d.values()] *)
Definition odict_values (d : list (axkey * axid)) : list axid := d.*2.

(** [l.index(x)] *)
Fixpoint list_index (x : string) (l : list string) : Res nat :=
  match l with
  | [] => Raise ValueError
  | y :: l' =>
      if decide (y = x) then Ok O
      else n ← list_index x l'; Ok (S n)
  end.

(** [l.insert(0, l.pop(i))] *)
Definition pop_insert0 {A} (i : nat) (l : list A) : list A :=
  match l !! i with
  | Some a => a :: delete i l
  | None => l
  end.

(** [kw.get(k, None) is None] *)
Definition kw_is_none (kw : gmap string pyval) (k : string) : bool :=
  match kw !! k with
  | None | Some VNone => true
  | Some _ => false
  end.

(** *** The legend entries of an axes

    [ax.get_legend_handles_labels()] of matplotlib: the artists whose label
    is neither empty nor starts with an underscore; lines come first, then
    patches, then collections (the comment in [plotdata]: "because they are
    collections they are considered after Line2D for the legend entries"),
    each kind in draw order. *)

#[global] Instance ArtistKind_eq_dec : EqDecision ArtistKind.
Proof. solve_decision. Defined.

Definition art_label (a : Artist) : string :=
  match art_kwargs a !! "label" with
  | Some (VStr l) => l
  | _ => ""
  end.

Definition in_legend (a : Artist) : bool :=
  negb (String.eqb (art_label a) "") && negb (String.prefix "_" (art_label a)).

Definition legend_handles (arts : list Artist) : list Artist :=
  filter (λ a, in_legend a)
    (filter (λ a, art_kind a = Line2D) arts
     ++ filter (λ a, art_kind a = Patch) arts
     ++ filter (λ a, art_kind a = Collection) arts).

Definition get_legend_handles_labels (ax : axid) (s : Plot)
  : list Artist * list string :=
  let arts := from_option ax_artists [] (fig_axes (fig s) !! ax) in
  let handles := legend_handles arts in
  (handles, art_label <$> handles).

(** ** [Plot] *)

Inductive Renderer := LineOnClose | Candlestick | OHLCBars.

(** The style dispatch of [plotdata]; [plotted] is unbound when no branch
    is taken. *)
Definition price_renderer (style : string) : Res Renderer :=
  if String.prefix "line" style then Ok LineOnClose
  else
    if String.prefix "candle" style then Ok Candlestick
    else if String.prefix "bar" style || true then Ok OHLCBars
    else Raise NameError.

Definition line_label (masterax : option axid) (ind : Plottable)
    (lineidx : nat) (line : Line) : string :=
  let indlabel := plotlabel ind in
  if bool_decide (is_Some masterax) && negb (pi_plotlinelabels (plotinfo ind))
  then
    let l := if bool_decide (lineidx = O) then indlabel else "" in
    if String.eqb l "" then "_nolegend" else l
  else linealias line.

Section Plot.
Context (bk : Backend).

(** A draw call on an axes: the artifact created. *)
Definition draw (method : string) (data : list pyfloat)
    (kw : gmap string pyval) : Artist :=
  {| art_method := method;
     art_kind := bk_kind bk method;
     art_data := data;
     art_kwargs := kw;
     art_zorder :=
       match kw !! "zorder" with
       | Some (VNum z) => z
       | _ => bk_zorder bk method
       end |}.

Definition drawtag (ax : axid) (x : Z) (y : pyfloat)
    (facecolor edgecolor : string) : M unit :=
  p ← gets pinf;
  z ← lift (zordercur p ax);
  on_axes ax (add_text
    {| tx_x := x; tx_y := y; tx_text := fmt_2f y;
       tx_facecolor := facecolor; tx_edgecolor := edgecolor;
       tx_alpha := 9 # 10; tx_fontsize := subtxtsize (sch p);
       tx_zorder := PrimFloat.add z 3.0 |}).

Definition newaxis (obj : axkey) (rowspan : Z) : M axid :=
  p ← gets pinf;
  ax ← gets (λ s, length (fig_axes (fig s)));
  modify (set_axes (λ axes, axes ++
    [new_axes (Subplot2grid (nrows p) (row p) rowspan (sharex p))
              (Some (grid (sch p)))])) ;;
  modify (set_pinf (λ p,
    {| sch := sch p; nrows := nrows p;
       row := row p + rowspan;
       xreal := xreal p; xlen := xlen p;
       sharex := match sharex p with None => Some ax | Some a => Some a end;
       daxis := odict_set (daxis p) obj ax;
       zorder := zorder p; coloridx := coloridx p |})) ;;
  mret ax.

(** One round of the loop over the lines of [plotind]. *)
Definition plotind_line (ax : axid) (masterax : option axid)
    (ind : Plottable) (lineidx : nat) (line : Line) : M unit :=
  let lineplotinfo := lineplotinfo line in
  if lp_plotskip lineplotinfo then mret tt
  else
    let label := line_label masterax ind lineidx line in
    let lplot := line_plot line in
    lastv ← lift (last_item lplot);
    let label :=
      if negb (isnan lastv) then label +:+ " " +:+ fmt_2f lastv else label in
    let linekwargs := lp_kwargs lineplotinfo in
    plotkwargs ←
      (if kw_is_none linekwargs "color" then
         (if negb (lp_samecolor lineplotinfo)
          then modify (set_pinf (λ p, (nextcolor p ax).2))
          else mret tt) ;;
         c ← gets (λ s, color (pinf s) ax);
         mret ({["color" := VStr c]} : gmap string pyval)
       else mret ∅);
    let plotkwargs := <["label" := VStr label]> (<["aa" := VBool true]> plotkwargs) in
    let plotkwargs := linekwargs ∪ plotkwargs in
    p ← gets pinf;
    plotkwargs ←
      match zorder p !! ax with
      | Some _ => z ← lift (zordernext p ax);
                  mret (<["zorder" := VNum z]> plotkwargs)
      | None => mret plotkwargs
      end;
    let plottedline :=
      draw (default "plot" (lp_method lineplotinfo)) lplot plotkwargs in
    on_axes ax (add_artist plottedline) ;;
    modify (set_pinf (set_zorder ax (art_zorder plottedline))) ;;
    if negb (isnan lastv) then
      c ← gets (λ s, color (pinf s) ax);
      drawtag ax (xlen p) lastv "white" c
    else mret tt.

(** The finishing of a panel of its own ([if not masterax]). *)
Definition plotind_finish (ax : axid) (ind : Plottable) : M unit :=
  on_axes ax (set_yticks (pi_plotyticks (plotinfo ind))) ;;
  forM_ (pi_plothlines (plotinfo ind)) (λ hline, on_axes ax (add_hline hline)) ;;
  p ← gets pinf;
  if legendind (sch p) && pi_plotlegend (plotinfo ind) then
    hl ← gets (get_legend_handles_labels ax);
    match hl.2 with
    | [] => mret tt
    | _ => on_axes ax (set_legend
             {| lg_handles := hl.1; lg_labels := hl.2;
                lg_loc := legendindloc (sch p);
                lg_title := Some (plotlabel ind) |})
    end
  else mret tt.

Fixpoint plotind (fuel : nat) (ind : Plottable) (subinds : list Plottable)
    (masterax : option axid) : M unit :=
  match fuel with
  | O => raise RecursionError
  | S fuel' =>
      ax ← match masterax with
           | Some ax => mret ax
           | None =>
               p ← gets pinf;
               newaxis (KObj (oid ind)) (rowsminor (sch p))
           end;
      forM_from 0 (lines ind) (plotind_line ax masterax ind) ;;
      forM_ subinds (λ subind,
        over ← gets (λ s, dget (dplotsover (groups s)) (oid subind));
        plotind fuel' subind over (Some ax)) ;;
      match masterax with
      | Some _ => mret tt
      | None => plotind_finish ax ind
      end
  end.

Definition plotvolume (data : Data) (opens highs lows closes volumes : list pyfloat)
    (label : string) : M Artist :=
  p ← gets pinf;
  let rowspan :=
    if voloverlay (sch p) then rowsmajor (sch p) else rowsminor (sch p) in
  ax ← newaxis (KVolume (d_id data)) rowspan;
  let volalpha := if voloverlay (sch p) then voltrans (sch p) else 1.0%float in
  let vollabel := label in
  let volplot :=
    draw "plot_volume" volumes
      (<["colorup" := VStr (volup (sch p))]>
         (<["colordown" := VStr (voldown (sch p))]>
            (<["alpha" := VNum volalpha]> {["label" := VStr vollabel]}))) in
  on_axes ax (add_artist volplot) ;;
  match volumes with
  | [] => raise ValueError
  | _ => mret tt
  end ;;
  (if voloverlay (sch p) then
     if Qeq_bool (volscaling (sch p)) 0 then raise ZeroDivisionError
     else mret tt
   else
     hl ← gets (get_legend_handles_labels ax);
     match hl.1 with
     | [] => mret tt
     | _ => on_axes ax (set_legend
              {| lg_handles := hl.1; lg_labels := hl.2;
                 lg_loc := legendindloc (sch p); lg_title := None |})
     end) ;;
  mret volplot.

(** [axvol.twinx()] *)
Definition twinx (axvol : axid) : M axid :=
  ax ← gets (λ s, length (fig_axes (fig s)));
  modify (set_axes (λ axes, axes ++ [new_axes (Twinx axvol) None])) ;;
  mret ax.

Definition datalabel_of (data : Data) (opens highs lows closes : list pyfloat)
  : Res string :=
  let datalabel := "" in
  let datalabel :=
    match d_name data with
    | Some name => if String.eqb name "" then datalabel else datalabel +:+ name
    | None => datalabel
    end in
  let datalabel :=
    match d_tf data with
    | Some (timeframe, compression) =>
        let tfname := bk_tfname bk timeframe compression in
        datalabel +:+ " (" +:+ fmt_d compression +:+ " " +:+ tfname +:+ ")"
    | None => datalabel
    end in
  o ← last_item opens;
  h ← last_item highs;
  l ← last_item lows;
  c ← last_item closes;
  Ok (datalabel +:+ " O:" +:+ fmt_2f o +:+ " H:" +:+ fmt_2_0f h
                +:+ " L:" +:+ fmt_2f l +:+ " C:" +:+ fmt_2f c).

(** The legend assembly at the end of [plotdata]. *)
Definition legend_order (overlaid : bool) (volplot : option Artist)
    (vollabel datalabel : string) (handles : list Artist) (labels : list string)
  : Res (list Artist * list string) :=
  let labels := if overlaid then vollabel :: labels else labels in
  let handles :=
    if overlaid then from_option (λ v, v :: handles) handles volplot
    else handles in
  didx ← list_index datalabel labels;
  let labels := pop_insert0 didx labels in
  let handles := pop_insert0 didx handles in
  Ok (handles, labels).

Definition plotdata (fuel : nat) (data : Data) (indicators : list Plottable)
  : M unit :=
  let opens := d_open data in
  let highs := d_high data in
  let lows := d_low data in
  let closes := d_close data in
  let volumes := d_volume data in
  let vollabel := "Volume" in
  p ← gets pinf;
  let sch := sch p in
  axv ←
    (if volume sch && voloverlay sch then
       volplot ← plotvolume data opens highs lows closes volumes vollabel;
       p ← gets pinf;
       axvol ← lift (odict_get (daxis p) (KVolume (d_id data)));
       ax ← twinx axvol;
       mret (ax, Some volplot)
     else
       ax ← newaxis (KObj (d_id data)) (rowsmajor sch);
       mret (ax, None));
  let ax := axv.1 in
  let volplot := axv.2 in
  datalabel ← lift (datalabel_of data opens highs lows closes);
  renderer ← lift (price_renderer (style sch));
  let plotted :=
    match renderer with
    | LineOnClose =>
        draw "plot_lineonclose" closes
          (<["color" := VStr (loc sch)]> {["label" := VStr datalabel]})
    | Candlestick =>
        draw "plot_candlestick" closes
          (<["colorup" := VStr (barup sch)]>
             (<["colordown" := VStr (bardown sch)]>
                {["label" := VStr datalabel]}))
    | OHLCBars =>
        draw "plot_ohlc" closes
          (<["colorup" := VStr (barup sch)]>
             (<["colordown" := VStr (bardown sch)]>
                {["label" := VStr datalabel]}))
    end in
  on_axes ax (add_artist plotted) ;;
  modify (set_pinf (set_zorder ax (art_zorder plotted))) ;;
  c ← lift (last_item closes);
  drawtag ax (xlen p) c "white" (loc sch) ;;
  (if volume sch then
     if negb (voloverlay sch) then
       plotvolume data opens highs lows closes volumes vollabel ;; mret tt
     else mret tt
   else mret tt) ;;
  forM_ indicators (λ ind,
    over ← gets (λ s, dget (dplotsover (groups s)) (oid ind));
    plotind fuel ind over (Some ax)) ;;
  hl ← gets (get_legend_handles_labels ax);
  match hl.1 with
  | [] => mret tt
  | _ =>
      hl' ← lift (legend_order (volume sch && voloverlay sch) volplot
                    vollabel datalabel hl.1 hl.2);
      on_axes ax (set_legend
        {| lg_handles := hl'.1; lg_labels := hl'.2;
           lg_loc := "upper left"; lg_title := None |})
  end.

(** The body of [plot] once the run state is set up. *)
Definition plot_run (fuel : nat) (strategy : Strategy) : M unit :=
  g ← gets groups;
  forM_ (dplotstop g) (λ ptop,
    over ← gets (λ s, dget (dplotsover (groups s)) (oid ptop));
    plotind fuel ptop over None) ;;
  forM_ (datas strategy) (λ data,
    ups ← gets (λ s, dget (dplotsup (groups s)) (d_id data));
    forM_ ups (λ ind,
      over ← gets (λ s, dget (dplotsover (groups s)) (oid ind));
      plotind fuel ind over None) ;;
    over ← gets (λ s, dget (dplotsover (groups s)) (d_id data));
    plotdata fuel data over ;;
    downs ← gets (λ s, dget (dplotsdown (groups s)) (d_id data));
    forM_ downs (λ ind,
      over ← gets (λ s, dget (dplotsover (groups s)) (oid ind));
      plotind fuel ind over None)) ;;
  p ← gets pinf;
  lastax ← lift (last_item (odict_values (daxis p)));
  on_axes lastax (set_xformatter (xreal p)) ;;
  modify (set_hspace (plotdist (sch p))) ;;
  forM_ (odict_values (daxis p)) (λ ax,
    on_axes ax (setp_xticklabels false None)) ;;
  on_axes lastax (setp_xticklabels true (Some (tickrotation (sch p)))) ;;
  let axtight := if negb (ytight (sch p)) then "x" else "both" in
  modify (set_autoscale axtight).

(** What [plot] finds and leaves behind: the attributes [pinf] and
    [dplots*] of [self] (absent on a new object) and pyplot's figure 0
    (absent until [mpyplot.figure(0)] is called). *)
Record World := {
  self_run : option (PInfo * Groups);
  figure0 : option Figure;
}.

Definition Figure_init : Figure :=
  {| fig_axes := []; fig_hspace := None; fig_autoscale := None |}.

Definition plot (fuel : nat) (scheme : PlotScheme) (strategy : Strategy)
    (w : World) : Res World :=
  match datas strategy with
  | [] => Ok w
  | _ =>
      let p := PInfo_init scheme in
      let g := sortdataindicators strategy in
      let p := calcrows p g strategy in
      let f := default Figure_init (figure0 w) in
      '(_, s) ← plot_run fuel strategy {| pinf := p; groups := g; fig := f |};
      Ok {| self_run := Some (pinf s, groups s); figure0 := Some (fig s) |}
  end.

End Plot.

(** ** Notions used in the statements *)

(** The artifacts and the text tags drawn so far on an axes. *)
Definition artists_on (ax : axid) (s : Plot) : list Artist :=
  from_option ax_artists [] (fig_axes (fig s) !! ax).

Definition texts_on (ax : axid) (s : Plot) : list TextTag :=
  from_option ax_texts [] (fig_axes (fig s) !! ax).

Definition legend_on (ax : axid) (s : Plot) : option Legend :=
  fig_axes (fig s) !! ax ≫= ax_legend.

(** The color an artifact was drawn with. *)
Definition art_color (a : Artist) : option pyval := art_kwargs a !! "color".

(** The z-order after [z] in the direction of the toggle. *)
Definition znext (down : bool) (z : float) : float :=
  if down then PrimFloat.mul z 0.9999 else PrimFloat.mul z 1.0001.

(** The last valid (non-NaN) value of a series, in the words of the
    specification. *)
Definition last_valid (l : list pyfloat) : option Q :=
  last (omap (λ v, match v with Fl q => Some q | NaN => None end) l).

(** *** One round of the loop of [plotind] in closed form *)

Definition full_label (masterax : option axid) (ind : Plottable)
    (lineidx : nat) (line : Line) (lastv : pyfloat) : string :=
  let label := line_label masterax ind lineidx line in
  if negb (isnan lastv) then label +:+ " " +:+ fmt_2f lastv else label.

Definition line_pinf (ax : axid) (lpi : LinePlotInfo) (p : PInfo) : PInfo :=
  if kw_is_none (lp_kwargs lpi) "color" && negb (lp_samecolor lpi)
  then (nextcolor p ax).2 else p.

Definition line_kwargs (ax : axid) (label : string) (lpi : LinePlotInfo)
    (p1 : PInfo) : gmap string pyval :=
  let kw := if kw_is_none (lp_kwargs lpi) "color"
            then {["color" := VStr (color p1 ax)]} else ∅ in
  let kw := lp_kwargs lpi ∪ <["label" := VStr label]> (<["aa" := VBool true]> kw) in
  match zorder p1 !! ax with
  | Some z => <["zorder" := VNum (znext (zdown (sch p1)) z)]> kw
  | None => kw
  end.

Definition line_tag (ax : axid) (lastv : pyfloat) (p2 : PInfo) (z : float) : TextTag :=
  {| tx_x := xlen p2; tx_y := lastv; tx_text := fmt_2f lastv;
     tx_facecolor := "white"; tx_edgecolor := color p2 ax;
     tx_alpha := 9 # 10; tx_fontsize := subtxtsize (sch p2);
     tx_zorder := PrimFloat.add z 3.0 |}.

Definition line_artist (bk : Backend) (ax : axid) (masterax : option axid)
    (ind : Plottable) (lineidx : nat) (line : Line) (lastv : pyfloat)
    (p : PInfo) : Artist :=
  let lpi := lineplotinfo line in
  draw bk (default "plot" (lp_method lpi)) (line_plot line)
    (line_kwargs ax (full_label masterax ind lineidx line lastv) lpi
       (line_pinf ax lpi p)).

Definition line_result (bk : Backend) (ax : axid) (masterax : option axid)
    (ind : Plottable) (lineidx : nat) (line : Line) (lastv : pyfloat)
    (s : Plot) : Plot :=
  let art := line_artist bk ax masterax ind lineidx line lastv (pinf s) in
  let p2 := set_zorder ax (art_zorder art)
              (line_pinf ax (lineplotinfo line) (pinf s)) in
  let s2 := set_pinf (λ _, p2) (set_axes (alter (add_artist art) ax) s) in
  if isnan lastv then s2
  else set_axes (alter (add_text (line_tag ax lastv p2 (art_zorder art))) ax) s2.


(** *** Comparing two runs up to the legend labels *)

(** What a panel shows of an artifact and of a tag besides the labels. *)
Definition art_look (a : Artist) : option pyval * float :=
  (art_color a, art_zorder a).

Definition axes_look (a : Axes) : list (option pyval * float) * list TextTag :=
  (art_look <$> ax_artists a, ax_texts a).

(** Same color indexes and z-orders recorded, same colors and z-orders of
    the artifacts drawn on every axes, same tags. *)
Definition same_look (s1 s2 : Plot) : Prop :=
  pinf s1 = pinf s2
  ∧ groups s1 = groups s2
  ∧ axes_look <$> fig_axes (fig s1) = axes_look <$> fig_axes (fig s2).

Definition res_rel {A} (R : A → A → Prop) (r1 r2 : Res (unit * A)) : Prop :=
  match r1, r2 with
  | Ok (_, a1), Ok (_, a2) => R a1 a2
  | Raise e1, Raise e2 => e1 = e2
  | _, _ => False
  end.

(** An indicator with other lines. *)
Definition with_lines (ind : Plottable) (ls : list Line) : Plottable :=
  {| oid := oid ind; clock := clock ind; plotinfo := plotinfo ind;
     plotlabel := plotlabel ind; lines := ls |}.


(** *** Placement groups *)

Inductive Placement :=
  | PTop
  | PAbove (key : objid)
  | PBelow (key : objid)
  | POverlay (key : objid).

#[global] Instance Placement_eq_dec : EqDecision Placement.
Proof. solve_decision. Defined.

Definition group (g : Groups) (pl : Placement) : list Plottable :=
  match pl with
  | PTop => dplotstop g
  | PAbove key => dget (dplotsup g) key
  | PBelow key => dget (dplotsdown g) key
  | POverlay key => dget (dplotsover g) key
  end.

(** Where an observer and an entry of the indicator registry belong:
    nowhere, or in one group; the key of a group is the clock itself, or
    the owner that the clock points to when it is a stub. *)
Definition place_observer (x : Plottable) : option Placement :=
  if not_plotted x then None
  else if pi_subplot (plotinfo x) then Some PTop
  else Some (POverlay match clock x with
                      | ClockObj o => o
                      | ClockStub _ owner => owner
                      end).

Definition place_indicator (e : IndEntry) : option Placement :=
  match e with
  | IndNoPlotinfo _ => None
  | IndPlot x =>
      if not_plotted x then None
      else
        let key := match clock x with
                   | ClockObj o => o
                   | ClockStub _ owner => owner
                   end in
        if pi_subplot (plotinfo x) then
          if pi_plotabove (plotinfo x) then Some (PAbove key)
          else Some (PBelow key)
        else Some (POverlay key)
  end.

Definition entry_id (e : IndEntry) : objid :=
  match e with
  | IndPlot x => oid x
  | IndNoPlotinfo o => o
  end.

(** The objects of the two registries, in declaration order. *)
Definition registry_ids (strategy : Strategy) : list objid :=
  (oid <$> getobservers strategy) ++ (entry_id <$> getindicators strategy).

(** The observers, then the indicators, that belong to a group, in the
    order of their registries. *)
Definition placed (strategy : Strategy) (pl : Placement) : list Plottable :=
  filter (λ x, place_observer x = Some pl) (getobservers strategy)
  ++ omap (λ e, match e with
                | IndPlot x =>
                    if decide (place_indicator e = Some pl) then Some x else None
                | IndNoPlotinfo _ => None
                end) (getindicators strategy).


(** *** The price panel *)

(** [l] without the first occurrence of [x]. *)
Fixpoint remove_first (x : string) (l : list string) : list string :=
  match l with
  | [] => []
  | y :: l' => if decide (y = x) then l' else y :: remove_first x l'
  end.

(** The axes that [plotdata] draws the price on: the next axes of the
    figure, or the one after the volume axes when volume is overlaid. *)
Definition price_axes (s : Plot) : axid :=
  let n := length (fig_axes (fig s)) in
  if volume (sch (pinf s)) && voloverlay (sch (pinf s)) then S n else n.


(** *** The skeleton of a run: panels, registry and x axis settings *)

Definition is_panel (a : Axes) : bool :=
  match ax_origin a with
  | Subplot2grid _ _ _ _ => true
  | Twinx _ => false
  end.

(** Whether the axes is a panel, and the settings of its x axis. *)
Record AxesSkel := {
  as_panel : bool;
  as_xformatter : option (list Q);
  as_xlabels_visible : bool;
  as_xlabels_rotation : option Z;
}.

Definition axes_skel (a : Axes) : AxesSkel :=
  {| as_panel := is_panel a; as_xformatter := ax_xformatter a;
     as_xlabels_visible := ax_xlabels_visible a;
     as_xlabels_rotation := ax_xlabels_rotation a |}.

Record Skel := {
  sk_sch : PlotScheme;
  sk_groups : Groups;
  sk_xreal : list Q;
  sk_row : Z;
  sk_daxis : list (axkey * axid);
  sk_axes : list AxesSkel;
}.

Definition skel (s : Plot) : Skel :=
  {| sk_sch := sch (pinf s); sk_groups := groups s; sk_xreal := xreal (pinf s);
     sk_row := row (pinf s); sk_daxis := daxis (pinf s);
     sk_axes := axes_skel <$> fig_axes (fig s) |}.

(** The creation of an axes: a panel for a key, or a twin. *)
Inductive Step :=
  | SNew (key : axkey) (rowspan : Z)
  | STwin.

Definition new_skel (panel : bool) : AxesSkel :=
  {| as_panel := panel; as_xformatter := None; as_xlabels_visible := true;
     as_xlabels_rotation := None |}.

Definition sk_step (sk : Skel) (st : Step) : Skel :=
  match st with
  | SNew key rowspan =>
      {| sk_sch := sk_sch sk; sk_groups := sk_groups sk; sk_xreal := sk_xreal sk;
         sk_row := sk_row sk + rowspan;
         sk_daxis := odict_set (sk_daxis sk) key (length (sk_axes sk));
         sk_axes := sk_axes sk ++ [new_skel true] |}
  | STwin =>
      {| sk_sch := sk_sch sk; sk_groups := sk_groups sk; sk_xreal := sk_xreal sk;
         sk_row := sk_row sk; sk_daxis := sk_daxis sk;
         sk_axes := sk_axes sk ++ [new_skel false] |}
  end.


Definition data_steps (sc : PlotScheme) (data : Data) : list Step :=
  if volume sc && voloverlay sc then
    [SNew (KVolume (d_id data)) (rowsmajor sc); STwin]
  else
    SNew (KObj (d_id data)) (rowsmajor sc)
    :: if volume sc then [SNew (KVolume (d_id data)) (rowsminor sc)] else [].






(** Whether a string has a blank. *)
Fixpoint has_space (s : string) : bool :=
  match s with
  | EmptyString => false
  | String c s' => Ascii.eqb c " "%char || has_space s'
  end.




(** The z-orders of [n] artifacts drawn one after the other on a panel
    whose current z-order is [z], and whether a list of z-orders goes
    strictly up from [z], or strictly down when [down]. *)
Fixpoint zchain (down : bool) (z : float) (n : nat) : list float :=
  match n with
  | O => []
  | S n' => znext down z :: zchain down (znext down z) n'
  end.

Fixpoint monotonic_from (down : bool) (z : float) (l : list float) : bool :=
  match l with
  | [] => true
  | z' :: l' =>
      (if down then PrimFloat.ltb z' z else PrimFloat.ltb z z')
      && monotonic_from down z' l'
  end.


(** *** Properties of commands *)

(** Commands that create no axes and leave the registry and the x axis
    settings alone. *)
Definition keeps_skel {A} (m : M A) : Prop :=
  ∀ s a s', m s = Ok (a, s') → skel s' = skel s.

(** Commands that only add artifacts: on every axes, what was drawn stays,
    in place. *)
Definition grows_artists {A} (m : M A) : Prop :=
  ∀ s a s', m s = Ok (a, s') →
    ∀ ax, artists_on ax s `prefix_of` artists_on ax s'.

(** Commands that never raise a given exception. *)
Definition no_raise {A} (e : PyErr) (m : M A) : Prop := ∀ s, m s ≠ Raise e.

(** The rows taken by a list of steps. *)
Definition step_rowspan (st : Step) : Z :=
  match st with
  | SNew _ rowspan => rowspan
  | STwin => 0
  end.

Definition rows_of (steps : list Step) : Z :=
  foldr (λ st acc, step_rowspan st + acc) 0 steps.

(** [sum(len(d[data]) for data in ds)] *)
Definition sum_len_over (d : gmap objid (list Plottable)) (ds : list Data) : Z :=
  foldr (λ data acc, Z.of_nat (length (dget d (d_id data))) + acc) 0 ds.


(** The updates of an axes and of [pinf] that the commands are made of. *)
Inductive draw_op : (Axes → Axes) → Prop :=
  | op_add_artist a : draw_op (add_artist a)
  | op_add_text t : draw_op (add_text t)
  | op_add_hline h : draw_op (add_hline h)
  | op_set_yticks t : draw_op (set_yticks t)
  | op_set_legend l : draw_op (set_legend l)
  | op_set_xformatter xs : draw_op (set_xformatter xs)
  | op_setp_xticklabels v r : draw_op (setp_xticklabels v r).

Inductive pinf_op : (PInfo → PInfo) → Prop :=
  | op_nextcolor ax : pinf_op (λ p, (nextcolor p ax).2)
  | op_set_zorder ax z : pinf_op (set_zorder ax z)
  | op_newaxis obj rowspan ax :
      pinf_op (λ p,
        {| sch := sch p; nrows := nrows p;
           row := row p + rowspan;
           xreal := xreal p; xlen := xlen p;
           sharex := match sharex p with None => Some ax | Some a => Some a end;
           daxis := odict_set (daxis p) obj ax;
           zorder := zorder p; coloridx := coloridx p |}).

(** A relation between the state before and after a command that returns. *)
Definition transits {A} (R : Plot → Plot → Prop) (m : M A) : Prop :=
  ∀ s a s', m s = Ok (a, s') → R s s'.


(** The plan of a composition: what [calcrows] and [sortdataindicators]
    fix before anything is drawn. *)
Definition same_plan (s s' : Plot) : Prop :=
  nrows (pinf s') = nrows (pinf s) ∧ sch (pinf s') = sch (pinf s)
  ∧ xreal (pinf s') = xreal (pinf s) ∧ xlen (pinf s') = xlen (pinf s)
  ∧ groups s' = groups s.


(** ** Concrete inputs used by the examples below *)

Module Ex.

Definition scheme : PlotScheme :=
  {| rowsmajor := 5; rowsminor := 1; volume := true; voloverlay := true;
     voltrans := 0.5; volscaling := 1 # 3; volup := "g"; voldown := "r";
     zdown := false; style := "candle"; loc := "black"; barup := "0.75";
     bardown := "red"; grid := true; legendind := true;
     legendindloc := "upper left"; hlinescolor := "0.66"; plotdist := 0;
     tickrotation := 15; ytight := false; subtxtsize := 9;
     sch_color := λ i, "C" +:+ pretty i |}.

(** The same scheme, volume off and two rows for a minor panel. *)
Definition scheme_minor2 : PlotScheme :=
  {| rowsmajor := 5; rowsminor := 2; volume := false; voloverlay := true;
     voltrans := 0.5; volscaling := 1 # 3; volup := "g"; voldown := "r";
     zdown := false; style := "line"; loc := "black"; barup := "0.75";
     bardown := "red"; grid := true; legendind := true;
     legendindloc := "upper left"; hlinescolor := "0.66"; plotdist := 0;
     tickrotation := 15; ytight := false; subtxtsize := 9;
     sch_color := λ i, "C" +:+ pretty i |}.

(** matplotlib's defaults: lines at z-order 2, the rest at 1. *)
Definition backend : Backend :=
  {| bk_kind := λ m,
       if String.eqb m "plot" then Line2D
       else if String.eqb m "plot_lineonclose" then Line2D
       else Collection;
     bk_zorder := λ m,
       if String.eqb m "plot" then 2%float
       else if String.eqb m "plot_lineonclose" then 2%float
       else 1%float;
     bk_tfname := λ _ _, "Day" |}.

Definition lineinfo : LinePlotInfo :=
  {| lp_plotskip := false; lp_samecolor := false; lp_method := None;
     lp_kwargs := ∅ |}.

Definition lineinfo_skip : LinePlotInfo :=
  {| lp_plotskip := true; lp_samecolor := false; lp_method := None;
     lp_kwargs := ∅ |}.

Definition info_over : PlotInfo :=
  {| pi_plot := true; pi_plotskip := false; pi_subplot := false;
     pi_plotabove := false; pi_plotlinelabels := false; pi_plotlegend := true;
     pi_plotyticks := None; pi_plothlines := [] |}.

Definition info_below : PlotInfo :=
  {| pi_plot := true; pi_plotskip := false; pi_subplot := true;
     pi_plotabove := false; pi_plotlinelabels := false; pi_plotlegend := true;
     pi_plotyticks := None; pi_plothlines := [] |}.

Definition data1 : Data :=
  {| d_id := 1%positive; d_name := Some "D"; d_tf := Some (5, 1);
     d_open := [Fl 1]; d_high := [Fl 2]; d_low := [Fl (1 # 2)];
     d_close := [Fl (3 # 2)]; d_volume := [Fl 100] |}.

Definition sma_line : Line :=
  {| linealias := "sma"; line_plot := [NaN; Fl (5 # 4)]; lineplotinfo := lineinfo |}.

(** An indicator drawn over the price of [data1]. *)
Definition sma : Plottable :=
  {| oid := 2%positive; clock := ClockObj 1%positive; plotinfo := info_over;
     plotlabel := "SMA"; lines := [sma_line] |}.

(** An indicator with a panel of its own below [data1]. *)
Definition rsi : Plottable :=
  {| oid := 3%positive; clock := ClockObj 1%positive; plotinfo := info_below;
     plotlabel := "RSI";
     lines := [ {| linealias := "rsi"; line_plot := [NaN; Fl 55];
                   lineplotinfo := lineinfo |} ] |}.

Definition strategy_empty : Strategy :=
  {| datas := []; getobservers := []; getindicators := [];
     clock_datetime := [] |}.

Definition strategy_sma : Strategy :=
  {| datas := [data1]; getobservers := []; getindicators := [IndPlot sma];
     clock_datetime := [735600%Q] |}.

Definition strategy_rsi : Strategy :=
  {| datas := [data1]; getobservers := []; getindicators := [IndPlot rsi];
     clock_datetime := [735600%Q] |}.

Definition world0 : World := {| self_run := None; figure0 := None |}.

(** A run state with one empty panel whose recorded z-order is [z]. *)
Definition state_z (z : float) : Plot :=
  {| pinf := set_zorder 0%nat z (PInfo_init scheme);
     groups := Groups_init;
     fig := {| fig_axes := [new_axes (Subplot2grid 1 0 1 None) None];
               fig_hspace := None; fig_autoscale := None |} |}.

(** A line whose keyword arguments pin the z-order 0. *)
Definition lineinfo_z0 : LinePlotInfo :=
  {| lp_plotskip := false; lp_samecolor := false; lp_method := None;
     lp_kwargs := {["zorder" := VNum 0]} |}.

(** Two lines on a panel of their own, the first one at z-order 0. *)
Definition macd : Plottable :=
  {| oid := 4%positive; clock := ClockObj 1%positive; plotinfo := info_below;
     plotlabel := "MACD";
     lines := [ {| linealias := "macd"; line_plot := [Fl 1];
                   lineplotinfo := lineinfo_z0 |};
                {| linealias := "signal"; line_plot := [Fl 2];
                   lineplotinfo := lineinfo |} ] |}.

(** A series with a valid sample followed by a missing one. *)
Definition trailing_nan_line : Line :=
  {| linealias := "buy"; line_plot := [Fl 1; NaN]; lineplotinfo := lineinfo |}.

(** The run state at the start of a composition. *)
Definition state0 : Plot :=
  {| pinf := PInfo_init scheme; groups := Groups_init; fig := Figure_init |}.


(** A line that is not to be drawn. *)
Definition skipped_line : Line :=
  {| linealias := "hidden"; line_plot := [Fl 7]; lineplotinfo := lineinfo_skip |}.

(** Three lines, the one in the middle skipped. *)
Definition stoch : Plottable :=
  {| oid := 5%positive; clock := ClockObj 1%positive; plotinfo := info_below;
     plotlabel := "Stochastic"; lines := [sma_line; skipped_line; sma_line] |}.


Definition info_top : PlotInfo :=
  {| pi_plot := true; pi_plotskip := false; pi_subplot := true;
     pi_plotabove := false; pi_plotlinelabels := false; pi_plotlegend := true;
     pi_plotyticks := None; pi_plothlines := [] |}.

Definition info_hidden : PlotInfo :=
  {| pi_plot := false; pi_plotskip := false; pi_subplot := true;
     pi_plotabove := false; pi_plotlinelabels := false; pi_plotlegend := true;
     pi_plotyticks := None; pi_plothlines := [] |}.

(** An observer with a panel of its own, one that is not plotted, and an
    indicator on a stub of [data1]. *)
Definition cash : Plottable :=
  {| oid := 6%positive; clock := ClockObj 1%positive; plotinfo := info_top;
     plotlabel := "Cash"; lines := [sma_line] |}.

Definition hidden : Plottable :=
  {| oid := 7%positive; clock := ClockObj 1%positive; plotinfo := info_hidden;
     plotlabel := "Hidden"; lines := [sma_line] |}.

Definition ema : Plottable :=
  {| oid := 8%positive; clock := ClockStub 9%positive 1%positive;
     plotinfo := info_over; plotlabel := "EMA"; lines := [sma_line] |}.

Definition strategy_full : Strategy :=
  {| datas := [data1];
     getobservers := [cash; hidden];
     getindicators := [IndPlot sma; IndNoPlotinfo 10%positive; IndPlot rsi;
                       IndPlot ema];
     clock_datetime := [735600%Q] |}.


(** A second data feed, an indicator on a stub of it, and a strategy with
    both feeds. *)
Definition data2 : Data :=
  {| d_id := 11%positive; d_name := Some "E"; d_tf := None;
     d_open := [Fl 3]; d_high := [Fl 4]; d_low := [Fl 2];
     d_close := [Fl 3]; d_volume := [Fl 50] |}.

Definition wma : Plottable :=
  {| oid := 12%positive; clock := ClockStub 13%positive 11%positive;
     plotinfo := info_over; plotlabel := "WMA"; lines := [sma_line] |}.

Definition strategy_two : Strategy :=
  {| datas := [data1; data2];
     getobservers := [cash; hidden];
     getindicators := [IndPlot sma; IndNoPlotinfo 10%positive; IndPlot rsi;
                       IndPlot ema; IndPlot wma];
     clock_datetime := [735600%Q] |}.


(** The scheme with a price style that names no renderer, and the run
    state at the start of a composition with it. *)
Definition scheme_area : PlotScheme :=
  {| rowsmajor := 5; rowsminor := 1; volume := true; voloverlay := false;
     voltrans := 0.5; volscaling := 1 # 3; volup := "g"; voldown := "r";
     zdown := false; style := "area"; loc := "black"; barup := "0.75";
     bardown := "red"; grid := true; legendind := true;
     legendindloc := "upper left"; hlinescolor := "0.66"; plotdist := 0;
     tickrotation := 15; ytight := false; subtxtsize := 9;
     sch_color := λ i, "C" +:+ pretty i |}.

Definition state_area : Plot :=
  {| pinf := PInfo_init scheme_area; groups := Groups_init; fig := Figure_init |}.


End Ex.

(** The row total as the specification words it: one minor-panel-span
    block for each entry of the above and below groups. *)
Definition spec_nrows (s : PlotScheme) (g : Groups) (strategy : Strategy) : Z :=
  Z.of_nat (length (datas strategy)) * rowsmajor s
  + (if volume s && negb (voloverlay s)
     then Z.of_nat (length (datas strategy)) * rowsminor s else 0)
  + Z.of_nat (length (dplotstop g)) * rowsminor s
  + (sum_len (dplotsup g) + sum_len (dplotsdown g)) * rowsminor s.

(** The row spans of the panels of a figure, in creation order. *)
Definition rowspans (f : Figure) : list Z :=
  omap (λ a, match ax_origin a with
             | Subplot2grid _ _ rowspan _ => Some rowspan
             | Twinx _ => None
             end) (fig_axes f).

(** * Properties *)

(** ** Style dispatch *)

(** The style dispatch: a style starting with "line" selects the
    close-only line renderer, one starting with "candle" the candlestick
    renderer, and every other string, "area" for one, the OHLC-bar
    renderer; no style raises. *)
Lemma price_renderer_fallback (style : string) :
  price_renderer style =
    Ok (if String.prefix "line" style then LineOnClose
        else if String.prefix "candle" style then Candlestick
        else OHLCBars)
  ∧ price_renderer "area" = Ok OHLCBars.
Proof.
  split; [|reflexivity].
  unfold price_renderer.
  destruct (String.prefix "line" style); [reflexivity|].
  destruct (String.prefix "candle" style); [reflexivity|].
  by rewrite orb_true_r.
Qed.

(** ** Empty input *)

(** C7: on a strategy without data feeds [plot] returns at once, without an
    error and leaving everything as it was: no run state, no figure, no
    panel. *)
Theorem plot_no_datas (bk : Backend) (fuel : nat) (scheme : PlotScheme)
    (strategy : Strategy) (w : World) :
  datas strategy = [] → plot bk fuel scheme strategy w = Ok w.
Proof. intros H. unfold plot. by rewrite H. Qed.

Lemma plot_no_datas_witness :
  plot Ex.backend 0 Ex.scheme Ex.strategy_empty Ex.world0 = Ok Ex.world0.
Proof. apply (plot_no_datas Ex.backend 0 Ex.scheme Ex.strategy_empty Ex.world0). reflexivity. Defined.

(** ** Row accounting *)

(** What [calcrows] computes: the entries above and below count for one
    row each, whatever the span of a minor panel. *)
Lemma calcrows_nrows (p : PInfo) (g : Groups) (strategy : Strategy) :
  nrows (calcrows p g strategy) =
    Z.of_nat (length (datas strategy)) * rowsmajor (sch p)
    + (if volume (sch p) && negb (voloverlay (sch p))
       then Z.of_nat (length (datas strategy)) * rowsminor (sch p) else 0)
    + Z.of_nat (length (dplotstop g)) * rowsminor (sch p)
    + sum_len (dplotsup g) + sum_len (dplotsdown g).
Proof. unfold calcrows; simpl. destruct (volume (sch p) && negb (voloverlay (sch p))); lia. Qed.

(** With a one-row minor panel the two totals agree. *)
Lemma calcrows_spec_rowsminor_1 (p : PInfo) (g : Groups) (strategy : Strategy) :
  rowsminor (sch p) = 1 →
  nrows (calcrows p g strategy) = spec_nrows (sch p) g strategy.
Proof.
  intros H. rewrite calcrows_nrows. unfold spec_nrows. rewrite H.
  destruct (volume (sch p) && negb (voloverlay (sch p))); lia.
Qed.

(** C3: with a minor span of 2 rows, one data feed and one indicator below
    it, [calcrows] plans 5 + 1 = 6 rows, where one minor-panel-span block
    for the indicator gives 5 + 2 = 7. *)
Theorem calcrows_below_one_row :
  let g := sortdataindicators Ex.strategy_rsi in
  nrows (calcrows (PInfo_init Ex.scheme_minor2) g Ex.strategy_rsi) = 6
  ∧ spec_nrows Ex.scheme_minor2 g Ex.strategy_rsi = 7.
Proof. vm_compute. done. Qed.

(** C2: on the same input the composition creates a price panel of 5 rows
    and an indicator panel of 2 rows: 7 rows are handed out, the cursor
    ends at 7, and the planned total is 6. *)
Theorem plot_rows_exceed_plan :
  ∃ p g f,
    plot Ex.backend 10 Ex.scheme_minor2 Ex.strategy_rsi Ex.world0
      = Ok {| self_run := Some (p, g); figure0 := Some f |}
    ∧ nrows p = 6 ∧ row p = 7 ∧ rowspans f = [5; 2].
Proof.
  destruct (plot Ex.backend 10 Ex.scheme_minor2 Ex.strategy_rsi Ex.world0)
    as [[[[p g]|] [f|]]|] eqn:E; try (vm_compute in E; discriminate).
  exists p, g, f. split; [reflexivity|].
  assert (H : (λ r, match r with
                    | Ok {| self_run := Some (p, _); figure0 := Some f |} =>
                        Some (nrows p, row p, rowspans f)
                    | _ => None
                    end) (plot Ex.backend 10 Ex.scheme_minor2 Ex.strategy_rsi Ex.world0)
              = Some (6, 7, [5; 2])) by (vm_compute; reflexivity).
  rewrite E in H. simpl in H. by inversion H.
Qed.

(** ** One round of the loop over the lines *)

Lemma plotind_line_eq (bk : Backend) ax masterax ind lineidx line s :
  plotind_line bk ax masterax ind lineidx line s =
    if lp_plotskip (lineplotinfo line) then Ok (tt, s)
    else match last (line_plot line) with
         | None => Raise IndexError
         | Some lastv => Ok (tt, line_result bk ax masterax ind lineidx line lastv s)
         end.
Proof.
  unfold plotind_line. destruct (lp_plotskip (lineplotinfo line)); [reflexivity|].
  unfold last_item. destruct (last (line_plot line)) as [lastv|]; [|reflexivity].
  unfold line_result, line_artist, line_pinf, line_kwargs, full_label, line_tag,
    drawtag, zordercur, zordernext, znext.
  unfold mbind, M_bind, lift, gets, modify, mret, M_ret, on_axes. cbn.
  destruct (kw_is_none (lp_kwargs (lineplotinfo line)) "color"); cbn;
  [destruct (lp_samecolor (lineplotinfo line)); cbn|];
  (destruct (zorder (pinf s) !! ax) as [z|] eqn:Hz; cbn;
   [destruct (zdown (sch (pinf s))); cbn|]);
  destruct (isnan lastv); cbn; rewrite ?lookup_insert_eq; reflexivity.
Qed.

Lemma fig_axes_set_axes f s : fig_axes (fig (set_axes f s)) = f (fig_axes (fig s)).
Proof. reflexivity. Qed.

Lemma fig_set_pinf f s : fig (set_pinf f s) = fig s.
Proof. reflexivity. Qed.

Lemma pinf_set_axes f s : pinf (set_axes f s) = pinf s.
Proof. reflexivity. Qed.

Lemma pinf_set_pinf f s : pinf (set_pinf f s) = f (pinf s).
Proof. reflexivity. Qed.

Lemma line_pinf_zorder ax lpi p : zorder (line_pinf ax lpi p) = zorder p.
Proof. unfold line_pinf. by destruct (_ && _). Qed.

Lemma line_pinf_sch ax lpi p : sch (line_pinf ax lpi p) = sch p.
Proof. unfold line_pinf. by destruct (_ && _). Qed.

Lemma artists_on_line_result bk ax masterax ind lineidx line lastv s a :
  fig_axes (fig s) !! ax = Some a →
  artists_on ax (line_result bk ax masterax ind lineidx line lastv s)
  = ax_artists a ++ [line_artist bk ax masterax ind lineidx line lastv (pinf s)].
Proof.
  intros Ha. unfold artists_on, line_result.
  destruct (isnan lastv);
    rewrite ?fig_axes_set_axes, ?fig_set_pinf, ?fig_axes_set_axes,
      ?list_lookup_alter_eq, Ha; reflexivity.
Qed.

Lemma texts_on_line_result bk ax masterax ind lineidx line lastv s a :
  fig_axes (fig s) !! ax = Some a →
  texts_on ax (line_result bk ax masterax ind lineidx line lastv s)
  = ax_texts a ++
      if isnan lastv then []
      else [line_tag ax lastv (pinf (line_result bk ax masterax ind lineidx line lastv s))
              (art_zorder (line_artist bk ax masterax ind lineidx line lastv (pinf s)))].
Proof.
  intros Ha. unfold texts_on, line_result.
  destruct (isnan lastv);
    rewrite ?fig_axes_set_axes, ?fig_set_pinf, ?fig_axes_set_axes,
      ?list_lookup_alter_eq, Ha; cbn; [by rewrite app_nil_r | reflexivity].
Qed.

Lemma zorder_line_result bk ax masterax ind lineidx line lastv s :
  zorder (pinf (line_result bk ax masterax ind lineidx line lastv s)) !! ax
  = Some (art_zorder (line_artist bk ax masterax ind lineidx line lastv (pinf s))).
Proof.
  unfold line_result. destruct (isnan lastv); cbn; by rewrite lookup_insert_eq.
Qed.

Lemma line_artist_zorder bk ax masterax ind lineidx line lastv p z :
  zorder p !! ax = Some z →
  art_zorder (line_artist bk ax masterax ind lineidx line lastv p)
  = znext (zdown (sch p)) z.
Proof.
  intros Hz. unfold line_artist, line_kwargs, draw; cbn.
  rewrite line_pinf_zorder, Hz, line_pinf_sch. by rewrite lookup_insert_eq.
Qed.

Lemma line_artist_label bk ax masterax ind lineidx line lastv p :
  lp_kwargs (lineplotinfo line) !! "label" = None →
  art_label (line_artist bk ax masterax ind lineidx line lastv p)
  = full_label masterax ind lineidx line lastv.
Proof.
  intros Hl. unfold art_label, line_artist, line_kwargs, draw; cbn.
  destruct (zorder _ !! ax);
    rewrite ?lookup_insert_ne by done;
    rewrite lookup_union_r by done; by rewrite lookup_insert_eq.
Qed.

(** ** Z-order *)

(** C6, amended: [zordernext] returns the double product of the current
    z-order [z] of the panel and 1.0001 (ascending) or 0.9999
    (descending); a line drawn by [plotind] on the panel gets that z-order,
    whatever its own keyword arguments say, and it becomes the current one;
    a value tag is drawn at the double sum [z + 3.0]; from the z-orders 1,
    2 and 3 the z-orders of the next thousand artifacts go strictly up,
    or strictly down, as configured. *)
Theorem zorder_drift (bk : Backend) (s : Plot) (ax : axid) (a : Axes) (z : float) :
  zorder (pinf s) !! ax = Some z →
  fig_axes (fig s) !! ax = Some a →
  let z' := if zdown (sch (pinf s)) then PrimFloat.mul z 0.9999
            else PrimFloat.mul z 1.0001 in
  zordernext (pinf s) ax = Ok z'
  ∧ (∀ masterax ind lineidx line lastv,
       lp_plotskip (lineplotinfo line) = false →
       last (line_plot line) = Some lastv →
       ∃ s' art,
         plotind_line bk ax masterax ind lineidx line s = Ok (tt, s')
         ∧ artists_on ax s' = ax_artists a ++ [art]
         ∧ art_zorder art = z'
         ∧ zorder (pinf s') !! ax = Some z')
  ∧ (∀ x y facecolor edgecolor,
       ∃ s' tag,
         drawtag ax x y facecolor edgecolor s = Ok (tt, s')
         ∧ texts_on ax s' = ax_texts a ++ [tag]
         ∧ tx_zorder tag = PrimFloat.add z 3.0)
  ∧ (∀ down z0, z0 ∈ [1.0; 2.0; 3.0]%float →
       monotonic_from down z0 (zchain down z0 1000) = true).
Proof.
  intros Hz Ha z'.
  assert (Hz' : z' = znext (zdown (sch (pinf s))) z) by reflexivity.
  split; [|split; [|split]].
  - unfold zordernext. rewrite Hz. subst z'. by destruct (zdown _).
  - intros masterax ind lineidx line lastv Hskip Hlast.
    exists (line_result bk ax masterax ind lineidx line lastv s),
           (line_artist bk ax masterax ind lineidx line lastv (pinf s)).
    rewrite plotind_line_eq, Hskip, Hlast.
    split; [reflexivity|]. split; [by apply artists_on_line_result|].
    rewrite zorder_line_result, (line_artist_zorder _ _ _ _ _ _ _ _ z Hz).
    by rewrite Hz'.
  - intros x y fc ec. unfold drawtag, zordercur.
    unfold mbind, M_bind, lift, gets, modify, mret, M_ret, on_axes. cbn.
    rewrite Hz. cbn. eexists _, _. split; [reflexivity|].
    unfold texts_on. rewrite fig_axes_set_axes, list_lookup_alter_eq, Ha. done.
  - intros down z0 Hz0.
    repeat (apply elem_of_cons in Hz0 as [->|Hz0];
            [destruct down; vm_compute; reflexivity|]).
    by apply elem_of_nil in Hz0.
Qed.

Lemma zorder_drift_witness :
  zordernext (pinf (Ex.state_z 2)) 0%nat = Ok (PrimFloat.mul 2 1.0001).
Proof.
  eapply (zorder_drift Ex.backend (Ex.state_z 2) 0%nat _ 2%float);
    vm_compute; reflexivity.
Defined.

(** C6 as stated fails: an indicator whose first line pins the z-order 0
    gets its second line at 0 * 1.0001, which is not above 0; and on a
    panel whose z-order is 1e17 the tag is drawn at 1e17 + 3.0, which is
    1e17 again and not 3 units above. *)
Lemma zorder_zero_not_monotonic :
  (∃ s' z1 z2,
     plotind Ex.backend 5 Ex.macd [] None Ex.state0 = Ok (tt, s')
     ∧ art_zorder <$> artists_on 0%nat s' = [z1; z2]
     ∧ zdown (sch (pinf s')) = false
     ∧ PrimFloat.ltb z1 z2 = false)
  ∧ (∃ s' tag,
       drawtag 0%nat 1 (Fl 1) "white" "black" (Ex.state_z 1e17) = Ok (tt, s')
       ∧ texts_on 0%nat s' = [tag]
       ∧ tx_zorder tag = 1e17%float).
Proof.
  split.
  - destruct (plotind Ex.backend 5 Ex.macd [] None Ex.state0) as [[[] s']|] eqn:E;
      [|vm_compute in E; discriminate].
    exists s', 0%float, (PrimFloat.mul 0 1.0001). split; [reflexivity|].
    assert (H : (λ r, match r with
                      | Ok (_, s') =>
                          Some (art_zorder <$> artists_on 0%nat s',
                                zdown (sch (pinf s')))
                      | Raise _ => None
                      end) (plotind Ex.backend 5 Ex.macd [] None Ex.state0)
                = Some ([0%float; PrimFloat.mul 0 1.0001], false))
      by (vm_compute; reflexivity).
    rewrite E in H. injection H as H1 H2.
    split; [done|]. split; [done|]. vm_compute. reflexivity.
  - eexists _, _. split; [reflexivity|]. split; vm_compute; reflexivity.
Qed.

(** ** The last sample of a series *)

Lemma last_all_nan (l : list pyfloat) :
  l ≠ [] → Forall (λ v, v = NaN) l → last l = Some NaN.
Proof.
  intros Hne Hall. destruct (last l) as [v|] eqn:E.
  - apply last_Some_elem_of in E. rewrite Forall_forall in Hall.
    by rewrite (Hall v E).
  - by apply last_None in E.
Qed.

(** C9, amended: for a line that is drawn and whose style pins no label,
    when the last sample of the series is a number it is appended to the
    label, formatted to two decimals, and a tag is drawn at it; when the
    last sample is NaN, as it is for a series of NaN only, the label has no
    suffix and no tag is drawn; in both cases the line is drawn without an
    error. *)
Theorem plotind_line_last_sample (bk : Backend) (s : Plot) (ax : axid) (a : Axes)
    (masterax : option axid) (ind : Plottable) (lineidx : nat) (line : Line) :
  fig_axes (fig s) !! ax = Some a →
  lp_plotskip (lineplotinfo line) = false →
  lp_kwargs (lineplotinfo line) !! "label" = None →
  (∀ lastv, last (line_plot line) = Some lastv →
     ∃ s' art,
       plotind_line bk ax masterax ind lineidx line s = Ok (tt, s')
       ∧ artists_on ax s' = ax_artists a ++ [art]
       ∧ match lastv with
         | Fl q =>
             art_label art
               = line_label masterax ind lineidx line +:+ " " +:+ fmt_2f (Fl q)
             ∧ ∃ tag, texts_on ax s' = ax_texts a ++ [tag]
                      ∧ tx_y tag = Fl q ∧ tx_text tag = fmt_2f (Fl q)
         | NaN =>
             art_label art = line_label masterax ind lineidx line
             ∧ texts_on ax s' = ax_texts a
         end)
  ∧ (line_plot line ≠ [] → Forall (λ v, v = NaN) (line_plot line) →
     ∃ s' art,
       plotind_line bk ax masterax ind lineidx line s = Ok (tt, s')
       ∧ artists_on ax s' = ax_artists a ++ [art]
       ∧ art_label art = line_label masterax ind lineidx line
       ∧ texts_on ax s' = ax_texts a).
Proof.
  intros Ha Hskip Hlabel.
  assert (Hmain : ∀ lastv, last (line_plot line) = Some lastv →
     ∃ s' art,
       plotind_line bk ax masterax ind lineidx line s = Ok (tt, s')
       ∧ artists_on ax s' = ax_artists a ++ [art]
       ∧ match lastv with
         | Fl q =>
             art_label art
               = line_label masterax ind lineidx line +:+ " " +:+ fmt_2f (Fl q)
             ∧ ∃ tag, texts_on ax s' = ax_texts a ++ [tag]
                      ∧ tx_y tag = Fl q ∧ tx_text tag = fmt_2f (Fl q)
         | NaN =>
             art_label art = line_label masterax ind lineidx line
             ∧ texts_on ax s' = ax_texts a
         end).
  { intros lastv Hlast.
    exists (line_result bk ax masterax ind lineidx line lastv s),
           (line_artist bk ax masterax ind lineidx line lastv (pinf s)).
    rewrite plotind_line_eq, Hskip, Hlast.
    split; [reflexivity|]. split; [by apply artists_on_line_result|].
    rewrite (line_artist_label _ _ _ _ _ _ _ _ Hlabel).
    rewrite (texts_on_line_result _ _ _ _ _ _ _ _ _ Ha).
    destruct lastv as [|q]; cbn.
    - by rewrite app_nil_r.
    - split; [reflexivity|]. by eexists. }
  split; [exact Hmain|].
  intros Hne Hnan.
  destruct (Hmain NaN (last_all_nan _ Hne Hnan)) as (s' & art & H1 & H2 & H3 & H4).
  by exists s', art.
Qed.

Lemma plotind_line_last_sample_witness :
  ∃ s' art,
    plotind_line Ex.backend 0%nat None Ex.sma 0 Ex.sma_line (Ex.state_z 2) = Ok (tt, s')
    ∧ artists_on 0%nat s' = [art]
    ∧ art_label art = "sma 1.25"
    ∧ ∃ tag, texts_on 0%nat s' = [tag] ∧ tx_y tag = Fl (5 # 4) ∧ tx_text tag = "1.25".
Proof.
  destruct (plotind_line_last_sample Ex.backend (Ex.state_z 2) 0%nat
              (new_axes (Subplot2grid 1 0 1 None) None) None Ex.sma 0 Ex.sma_line
              eq_refl eq_refl eq_refl) as [H _].
  destruct (H (Fl (5 # 4)) eq_refl) as (s' & art & H1 & H2 & H3 & H4).
  exists s', art. split; [exact H1|]. split; [exact H2|]. split; [exact H3|].
  exact H4.
Defined.

(** C9 as stated fails on a series whose last sample is missing: the
    series [1.0, NaN] has the last valid value 1.0, and its line is drawn
    with the bare label and without a tag. *)
Lemma plotind_line_trailing_nan :
  last_valid (line_plot Ex.trailing_nan_line) = Some 1%Q
  ∧ ∃ s',
      plotind_line Ex.backend 0%nat None Ex.sma 0 Ex.trailing_nan_line (Ex.state_z 2)
        = Ok (tt, s')
      ∧ art_label <$> artists_on 0%nat s' = ["buy"]
      ∧ texts_on 0%nat s' = [].
Proof.
  split; [reflexivity|].
  rewrite plotind_line_eq. cbn. eexists. split; [reflexivity|].
  split; vm_compute; reflexivity.
Qed.

(** ** Skipped lines *)

Lemma res_rel_bind {A} (R : A → A → Prop) (m1 m2 k1 k2 : A → Res (unit * A)) a1 a2 :
  res_rel R (m1 a1) (m2 a2) →
  (∀ b1 b2, R b1 b2 → res_rel R (k1 b1) (k2 b2)) →
  res_rel R (match m1 a1 with Ok (_, b) => k1 b | Raise e => Raise e end)
            (match m2 a2 with Ok (_, b) => k2 b | Raise e => Raise e end).
Proof.
  intros Hm Hk. destruct (m1 a1) as [[[] b1]|e1], (m2 a2) as [[[] b2]|e2];
    cbn in *; try done. by apply Hk.
Qed.

Lemma line_kwargs_lookup ax l1 l2 lpi p k :
  k ≠ "label" → line_kwargs ax l1 lpi p !! k = line_kwargs ax l2 lpi p !! k.
Proof.
  intros Hk. unfold line_kwargs.
  assert (H : ∀ kw : gmap string pyval,
    (lp_kwargs lpi ∪ <["label" := VStr l1]> kw) !! k
    = (lp_kwargs lpi ∪ <["label" := VStr l2]> kw) !! k).
  { intros kw. rewrite !lookup_union. by rewrite !lookup_insert_ne. }
  destruct (zorder p !! ax).
  - destruct (decide (k = "zorder")) as [->|Hz].
    + by rewrite !lookup_insert_eq.
    + rewrite !lookup_insert_ne by done. apply H.
  - apply H.
Qed.

Lemma line_artist_look bk ax m1 m2 ind1 ind2 i1 i2 line lastv p :
  art_look (line_artist bk ax m1 ind1 i1 line lastv p)
  = art_look (line_artist bk ax m2 ind2 i2 line lastv p).
Proof.
  unfold art_look, art_color, line_artist, draw; cbn.
  f_equal.
  - by apply line_kwargs_lookup.
  - by rewrite (line_kwargs_lookup ax _ (full_label m2 ind2 i2 line lastv) _ _ "zorder").
Qed.

Lemma axes_look_alter_artist (l1 l2 : list Axes) (ax : nat) a1 a2 :
  axes_look <$> l1 = axes_look <$> l2 →
  art_look a1 = art_look a2 →
  axes_look <$> alter (add_artist a1) ax l1 = axes_look <$> alter (add_artist a2) ax l2.
Proof.
  intros Hl Ha.
  rewrite (list_fmap_alter axes_look (add_artist a1)
             (λ x, (x.1 ++ [art_look a1], x.2))).
  2:{ apply Forall_forall. intros x _. unfold axes_look; cbn. by rewrite fmap_app. }
  rewrite (list_fmap_alter axes_look (add_artist a2)
             (λ x, (x.1 ++ [art_look a1], x.2))).
  2:{ apply Forall_forall. intros x _. unfold axes_look; cbn.
      by rewrite fmap_app, Ha. }
  by rewrite Hl.
Qed.

Lemma axes_look_alter_text (l1 l2 : list Axes) (ax : nat) t :
  axes_look <$> l1 = axes_look <$> l2 →
  axes_look <$> alter (add_text t) ax l1 = axes_look <$> alter (add_text t) ax l2.
Proof.
  intros Hl.
  rewrite !(list_fmap_alter axes_look (add_text t) (λ x, (x.1, x.2 ++ [t]))).
  2,3: by apply Forall_forall.
  by rewrite Hl.
Qed.

Lemma line_result_same_look bk ax m1 m2 ind1 ind2 i1 i2 line lastv s1 s2 :
  same_look s1 s2 →
  same_look (line_result bk ax m1 ind1 i1 line lastv s1)
            (line_result bk ax m2 ind2 i2 line lastv s2).
Proof.
  intros (Hp & Hg & Hf).
  pose proof (line_artist_look bk ax m1 m2 ind1 ind2 i1 i2 line lastv (pinf s2)) as Hlook.
  assert (Hz : art_zorder (line_artist bk ax m1 ind1 i1 line lastv (pinf s2))
               = art_zorder (line_artist bk ax m2 ind2 i2 line lastv (pinf s2)))
    by (by injection Hlook).
  unfold same_look, line_result. rewrite Hp, Hz.
  destruct (isnan lastv); cbn; (split; [reflexivity|]); (split; [exact Hg|]).
  - by apply axes_look_alter_artist.
  - apply axes_look_alter_text. by apply axes_look_alter_artist.
Qed.

Lemma plotind_line_same_look bk ax m1 m2 ind1 ind2 i1 i2 line s1 s2 :
  same_look s1 s2 →
  res_rel same_look (plotind_line bk ax m1 ind1 i1 line s1)
                    (plotind_line bk ax m2 ind2 i2 line s2).
Proof.
  intros HR. rewrite !plotind_line_eq.
  destruct (lp_plotskip _); [exact HR|].
  destruct (last _) as [lastv|]; [|reflexivity].
  by apply line_result_same_look.
Qed.

Lemma lines_loop_same_look bk ax m1 m2 ind1 ind2 ls i1 i2 s1 s2 :
  same_look s1 s2 →
  res_rel same_look (forM_from i1 ls (plotind_line bk ax m1 ind1) s1)
                    (forM_from i2 ls (plotind_line bk ax m2 ind2) s2).
Proof.
  revert i1 i2 s1 s2. induction ls as [|line ls IH]; intros i1 i2 s1 s2 HR.
  - exact HR.
  - cbn. unfold mbind, M_bind.
    apply (res_rel_bind same_look
             (plotind_line bk ax m1 ind1 i1 line) (plotind_line bk ax m2 ind2 i2 line)).
    + by apply plotind_line_same_look.
    + intros b1 b2 Hb. by apply IH.
Qed.

Lemma lines_loop_skip_same_look bk ax m1 m2 ind1 ind2 l1 sk l2 i1 i2 s1 s2 :
  lp_plotskip (lineplotinfo sk) = true →
  same_look s1 s2 →
  res_rel same_look
    (forM_from i1 (l1 ++ sk :: l2) (plotind_line bk ax m1 ind1) s1)
    (forM_from i2 (l1 ++ l2) (plotind_line bk ax m2 ind2) s2).
Proof.
  intros Hsk. revert i1 i2 s1 s2.
  induction l1 as [|line l1 IH]; intros i1 i2 s1 s2 HR.
  - cbn. unfold mbind, M_bind. rewrite plotind_line_eq, Hsk.
    by apply lines_loop_same_look.
  - cbn. unfold mbind, M_bind.
    apply (res_rel_bind same_look
             (plotind_line bk ax m1 ind1 i1 line) (plotind_line bk ax m2 ind2 i2 line)).
    + by apply plotind_line_same_look.
    + intros b1 b2 Hb. by apply IH.
Qed.

(** The recursion of [plotind], one level unfolded. *)
Lemma plotind_over_eq bk fuel ind subinds ax s :
  plotind bk (S fuel) ind subinds (Some ax) s =
    match forM_from 0 (lines ind) (plotind_line bk ax (Some ax) ind) s with
    | Ok (_, s1) =>
        match forM_ subinds (λ subind,
                over ← gets (λ s, dget (dplotsover (groups s)) (oid subind));
                plotind bk fuel subind over (Some ax)) s1 with
        | Ok (_, s2) => Ok (tt, s2)
        | Raise e => Raise e
        end
    | Raise e => Raise e
    end.
Proof. reflexivity. Qed.

Lemma plotind_new_eq bk fuel ind subinds s :
  plotind bk (S fuel) ind subinds None s =
    match newaxis (KObj (oid ind)) (rowsminor (sch (pinf s))) s with
    | Ok (ax, s0) =>
        match forM_from 0 (lines ind) (plotind_line bk ax None ind) s0 with
        | Ok (_, s1) =>
            match forM_ subinds (λ subind,
                    over ← gets (λ s, dget (dplotsover (groups s)) (oid subind));
                    plotind bk fuel subind over (Some ax)) s1 with
            | Ok (_, s2) => plotind_finish ax ind s2
            | Raise e => Raise e
            end
        | Raise e => Raise e
        end
    | Raise e => Raise e
    end.
Proof. reflexivity. Qed.

Lemma plotind_over_same_look bk fuel ind subinds ax s1 s2 :
  same_look s1 s2 →
  res_rel same_look (plotind bk fuel ind subinds (Some ax) s1)
                    (plotind bk fuel ind subinds (Some ax) s2).
Proof.
  revert ind subinds ax s1 s2.
  induction fuel as [|fuel IH]; intros ind subinds ax s1 s2 HR; [reflexivity|].
  rewrite !plotind_over_eq.
  apply (res_rel_bind same_look
    (forM_from 0 (lines ind) (plotind_line bk ax (Some ax) ind))
    (forM_from 0 (lines ind) (plotind_line bk ax (Some ax) ind))
    (λ s1, match forM_ subinds _ s1 with Ok (_, s2) => Ok (tt, s2) | Raise e => Raise e end)
    (λ s1, match forM_ subinds _ s1 with Ok (_, s2) => Ok (tt, s2) | Raise e => Raise e end)).
  - by apply lines_loop_same_look.
  - clear s1 s2 HR. intros s1 s2 HR.
    apply (res_rel_bind same_look (forM_ subinds _) (forM_ subinds _)
             (λ s, Ok (tt, s)) (λ s, Ok (tt, s))); [|done].
    revert s1 s2 HR. induction subinds as [|subind subinds IHs]; intros s1 s2 HR.
    + exact HR.
    + cbn. unfold mbind, M_bind, gets. 
      apply (res_rel_bind same_look
        (λ s, plotind bk fuel subind (dget (dplotsover (groups s)) (oid subind)) (Some ax) s)
        (λ s, plotind bk fuel subind (dget (dplotsover (groups s)) (oid subind)) (Some ax) s)).
      * destruct HR as (Hp & Hg & Hf). rewrite Hg. apply IH. by repeat split.
      * intros b1 b2 Hb. by apply IHs.
Qed.

Lemma res_rel_refl {A} (R : A → A → Prop) (r : Res (unit * A)) :
  (∀ a, R a a) → res_rel R r r.
Proof. intros HR. destruct r as [[[] a]|e]; cbn; auto. Qed.

Lemma same_look_refl s : same_look s s.
Proof. by repeat split. Qed.

Lemma lines_loop_new_skip bk ax ind ls l1 sk l2 i1 i2 s :
  lp_plotskip (lineplotinfo sk) = true →
  forM_from i1 (l1 ++ sk :: l2) (plotind_line bk ax None ind) s
  = forM_from i2 (l1 ++ l2) (plotind_line bk ax None (with_lines ind ls)) s.
Proof.
  intros Hsk.
  assert (Hstep : ∀ i j line s,
    plotind_line bk ax None ind i line s
    = plotind_line bk ax None (with_lines ind ls) j line s) by reflexivity.
  assert (Hloop : ∀ l i j s,
    forM_from i l (plotind_line bk ax None ind) s
    = forM_from j l (plotind_line bk ax None (with_lines ind ls)) s).
  { induction l as [|line l IHl]; intros i j s0; [reflexivity|].
    cbn. unfold mbind, M_bind. rewrite (Hstep i j).
    destruct (plotind_line _ _ _ _ _ _ _) as [[[] s']|]; [apply IHl|reflexivity]. }
  revert i1 i2 s. induction l1 as [|line l1 IH]; intros i1 i2 s.
  - cbn. unfold mbind, M_bind. rewrite plotind_line_eq, Hsk. apply Hloop.
  - cbn. unfold mbind, M_bind. rewrite (Hstep i1 i2).
    destruct (plotind_line _ _ _ _ _ _ _) as [[[] s']|]; [apply IH|reflexivity].
Qed.

(** C10: a line whose style sets [_plotskip] leaves the run state as it
    is, whatever the state, the panel and its index: nothing is drawn and
    the color index and the recorded z-order stay the same.  Hence drawing
    an indicator gives, with the same errors, the same color indexes, the
    same recorded z-orders and the same colors and z-orders of all the
    artifacts and tags on every panel as drawing it without the skipped
    line. *)
Theorem plotind_skipped_line (bk : Backend) (fuel : nat) (ind : Plottable)
    (subinds : list Plottable) (masterax : option axid) (s : Plot)
    (l1 l2 : list Line) (sk : Line) :
  lines ind = l1 ++ sk :: l2 →
  lp_plotskip (lineplotinfo sk) = true →
  (∀ ax lineidx s0, plotind_line bk ax masterax ind lineidx sk s0 = Ok (tt, s0))
  ∧ res_rel same_look
      (plotind bk fuel ind subinds masterax s)
      (plotind bk fuel (with_lines ind (l1 ++ l2)) subinds masterax s).
Proof.
  intros Hlines Hsk. split.
  { intros ax lineidx s0. by rewrite plotind_line_eq, Hsk. }
  destruct fuel as [|fuel]; [reflexivity|].
  destruct masterax as [ax|].
  - rewrite !plotind_over_eq, Hlines. cbn [lines with_lines].
    apply (res_rel_bind same_look
      (forM_from 0 (l1 ++ sk :: l2) (plotind_line bk ax (Some ax) ind))
      (forM_from 0 (l1 ++ l2) (plotind_line bk ax (Some ax) (with_lines ind (l1 ++ l2))))
      (λ s1, match forM_ subinds _ s1 with Ok (_, s2) => Ok (tt, s2) | Raise e => Raise e end)
      (λ s1, match forM_ subinds _ s1 with Ok (_, s2) => Ok (tt, s2) | Raise e => Raise e end)).
    + apply lines_loop_skip_same_look; [done|apply same_look_refl].
    + intros s1 s2 HR.
      pose proof (plotind_over_same_look bk (S fuel)
                    (with_lines ind []) subinds ax s1 s2 HR) as H.
      rewrite !plotind_over_eq in H. exact H.
  - rewrite !plotind_new_eq, Hlines. cbn [lines with_lines oid].
    destruct (newaxis _ _ s) as [[ax s0]|]; [|reflexivity].
    rewrite (lines_loop_new_skip bk ax ind (l1 ++ l2) l1 sk l2 0 0 s0 Hsk).
    apply res_rel_refl, same_look_refl.
Qed.

Lemma plotind_skipped_line_witness :
  res_rel same_look
    (plotind Ex.backend 5 Ex.stoch [] None Ex.state0)
    (plotind Ex.backend 5 (with_lines Ex.stoch ([Ex.sma_line] ++ [Ex.sma_line])) [] None Ex.state0).
Proof.
  apply (plotind_skipped_line Ex.backend 5 Ex.stoch [] None Ex.state0
           [Ex.sma_line] [Ex.sma_line] Ex.skipped_line eq_refl eq_refl).
Defined.

(** ** Classification *)

Lemma dget_dappend d key x k :
  dget (dappend d key x) k = if decide (key = k) then dget d k ++ [x] else dget d k.
Proof.
  unfold dget, dappend. destruct (decide (key = k)) as [->|Hne].
  - by rewrite lookup_insert_eq.
  - by rewrite lookup_insert_ne.
Qed.

Lemma group_sort_observer g x pl :
  group (sort_observer g x) pl =
    group g pl ++ if decide (place_observer x = Some pl) then [x] else [].
Proof.
  unfold sort_observer, place_observer.
  change (match clock x with ClockObj o => o | ClockStub _ owner => owner end)
    with (clock_owner (clock x)).
  destruct (not_plotted x); [by rewrite decide_False, app_nil_r|].
  destruct (pi_subplot (plotinfo x)).
  - destruct pl; cbn; rewrite ?decide_False by done; rewrite ?app_nil_r;
      first [done | by rewrite decide_True].
  - destruct pl as [|k|k|k]; cbn; rewrite ?decide_False by done;
      rewrite ?app_nil_r; try done.
    rewrite dget_dappend.
    destruct (decide (clock_owner (clock x) = k)) as [->|Hne].
    + by rewrite decide_True.
    + rewrite decide_False, app_nil_r; [done|congruence].
Qed.

Lemma group_sort_indicator g e pl :
  group (sort_indicator g e) pl =
    group g pl ++
      match e with
      | IndPlot x => if decide (place_indicator e = Some pl) then [x] else []
      | IndNoPlotinfo _ => []
      end.
Proof.
  destruct e as [x|o]; [|by rewrite app_nil_r].
  unfold sort_indicator, place_indicator.
  change (match clock x with ClockObj o => o | ClockStub _ owner => owner end)
    with (clock_owner (clock x)).
  destruct (not_plotted x); [by rewrite decide_False, app_nil_r|].
  destruct (pi_subplot (plotinfo x)); [destruct (pi_plotabove (plotinfo x))|];
    destruct pl as [|k|k|k]; cbn; rewrite ?decide_False by done;
      rewrite ?app_nil_r; try done;
    rewrite dget_dappend;
    (destruct (decide (clock_owner (clock x) = k)) as [->|Hne];
     [by rewrite decide_True
     |rewrite decide_False, app_nil_r; [done|congruence]]).
Qed.

Lemma group_foldl_observers obs g pl :
  group (foldl sort_observer g obs) pl =
    group g pl ++ filter (λ x, place_observer x = Some pl) obs.
Proof.
  revert g. induction obs as [|x obs IH]; intros g; cbn [foldl].
  - by rewrite filter_nil, app_nil_r.
  - rewrite IH, group_sort_observer, filter_cons, <- app_assoc.
    by destruct (decide (place_observer x = Some pl)).
Qed.

Lemma group_foldl_indicators inds g pl :
  group (foldl sort_indicator g inds) pl =
    group g pl ++
      omap (λ e, match e with
                 | IndPlot x =>
                     if decide (place_indicator e = Some pl) then Some x else None
                 | IndNoPlotinfo _ => None
                 end) inds.
Proof.
  revert g. induction inds as [|e inds IH]; intros g; cbn [foldl omap list_omap].
  - by rewrite app_nil_r.
  - rewrite IH, group_sort_indicator, <- app_assoc. f_equal.
    destruct e as [x|o]; [|done].
    by destruct (decide (place_indicator (IndPlot x) = Some pl)).
Qed.

(** Every group is the part of the registries that belongs to it, in
    declaration order. *)
Lemma sortdataindicators_placed strategy pl :
  group (sortdataindicators strategy) pl = placed strategy pl.
Proof.
  unfold sortdataindicators, placed.
  rewrite group_foldl_indicators, group_foldl_observers.
  by destruct pl.
Qed.

Lemma NoDup_fmap_elem_inj {A B} (f : A → B) (l : list A) x y :
  NoDup (f <$> l) → x ∈ l → y ∈ l → f x = f y → x = y.
Proof.
  induction l as [|a l IH]; cbn; intros Hnd Hx Hy Hf; [by inv Hx|].
  apply NoDup_cons in Hnd as [Hna Hnd].
  apply elem_of_cons in Hx as [->|Hx], Hy as [->|Hy]; auto.
  - exfalso. apply Hna. rewrite Hf. by apply list_elem_of_fmap_2.
  - exfalso. apply Hna. rewrite <- Hf. by apply list_elem_of_fmap_2.
Qed.

Lemma placed_elem strategy pl y :
  y ∈ placed strategy pl ↔
    (y ∈ getobservers strategy ∧ place_observer y = Some pl)
    ∨ (IndPlot y ∈ getindicators strategy ∧ place_indicator (IndPlot y) = Some pl).
Proof.
  unfold placed. rewrite elem_of_app, list_elem_of_filter, list_elem_of_omap.
  split.
  - intros [[? ?]|(e & He & Hy)]; [by left|right].
    destruct e as [x|o]; [|done]. case_decide; [|done].
    injection Hy as ->. done.
  - intros [[? ?]|[He Hp]]; [by left|right].
    exists (IndPlot y). split; [done|]. by rewrite decide_True.
Qed.

(** C4: an observer or an indicator that is plotted and not skipped is in
    the group of its placement, under the key of its clock: the clock
    itself, or the owner the clock points to when it is a stub; every group
    lists its members in the order of the registries, the observers before
    the indicators; and with the objects of the registries pairwise
    distinct, an object is in a group exactly when it belongs there: an
    object that is not plotted, is skipped or has no plot metadata is in no
    group, every other object is in one group only, and once. *)
Theorem sortdataindicators_groups (strategy : Strategy) :
  let g := sortdataindicators strategy in
  (∀ pl, group g pl = placed strategy pl)
  ∧ (∀ x, x ∈ getobservers strategy → not_plotted x = false →
       if pi_subplot (plotinfo x) then x ∈ dplotstop g
       else match clock x with
            | ClockObj o => x ∈ dget (dplotsover g) o
            | ClockStub _ owner => x ∈ dget (dplotsover g) owner
            end)
  ∧ (∀ x, IndPlot x ∈ getindicators strategy → not_plotted x = false →
       let members := λ key,
         if pi_subplot (plotinfo x) then
           if pi_plotabove (plotinfo x) then dget (dplotsup g) key
           else dget (dplotsdown g) key
         else dget (dplotsover g) key in
       match clock x with
       | ClockObj o => x ∈ members o
       | ClockStub _ owner => x ∈ members owner
       end)
  ∧ (NoDup (registry_ids strategy) →
     (∀ x pl, x ∈ getobservers strategy →
        oid x ∈ oid <$> group g pl ↔ place_observer x = Some pl)
     ∧ (∀ e pl, e ∈ getindicators strategy →
        entry_id e ∈ oid <$> group g pl ↔ place_indicator e = Some pl)
     ∧ (∀ pl, NoDup (oid <$> group g pl))).
Proof.
  intros g.
  assert (Hin : ∀ y pl, y ∈ group g pl ↔
    (y ∈ getobservers strategy ∧ place_observer y = Some pl)
    ∨ (IndPlot y ∈ getindicators strategy ∧ place_indicator (IndPlot y) = Some pl)).
  { intros y pl. unfold g. rewrite sortdataindicators_placed. apply placed_elem. }
  split; [intros pl; apply sortdataindicators_placed|].
  split.
  { intros x Hx Hvis.
    destruct (pi_subplot (plotinfo x)) eqn:Esub.
    - apply (Hin x PTop). left. split; [done|].
      unfold place_observer. by rewrite Hvis, Esub.
    - destruct (clock x) as [o|stub owner] eqn:Ec.
      + apply (Hin x (POverlay o)). left. split; [done|].
        unfold place_observer. by rewrite Hvis, Esub, Ec.
      + apply (Hin x (POverlay owner)). left. split; [done|].
        unfold place_observer. by rewrite Hvis, Esub, Ec. }
  split.
  { intros x Hx Hvis members.
    assert (Hkey : ∀ key,
      match clock x with ClockObj o => o | ClockStub _ owner => owner end = key →
      x ∈ members key).
    { intros key Hk. unfold members.
      destruct (pi_subplot (plotinfo x)) eqn:Esub;
        [destruct (pi_plotabove (plotinfo x)) eqn:Eab|].
      - apply (Hin x (PAbove key)). right. split; [done|].
        unfold place_indicator. by rewrite Hvis, Esub, Eab, Hk.
      - apply (Hin x (PBelow key)). right. split; [done|].
        unfold place_indicator. by rewrite Hvis, Esub, Eab, Hk.
      - apply (Hin x (POverlay key)). right. split; [done|].
        unfold place_indicator. by rewrite Hvis, Esub, Hk. }
    destruct (clock x); by apply Hkey. }
  intros Hnd. unfold registry_ids in Hnd.
  apply NoDup_app in Hnd as (Hobs & Hdisj & Hinds).
  split; [|split].
  - intros x pl Hx. rewrite list_elem_of_fmap. split.
    + intros (y & Hid & Hy). apply Hin in Hy as [[Hy Hp]|[Hy Hp]].
      * by rewrite (NoDup_fmap_elem_inj oid _ x y Hobs Hx Hy Hid).
      * exfalso. apply (Hdisj (oid x)); [by apply list_elem_of_fmap_2|].
        rewrite Hid. by apply (list_elem_of_fmap_2 entry_id _ (IndPlot y)).
    + intros Hp. exists x. split; [done|]. apply Hin. by left.
  - intros e pl He. rewrite list_elem_of_fmap. split.
    + intros (y & Hid & Hy). apply Hin in Hy as [[Hy Hp]|[Hy Hp]].
      * exfalso. apply (Hdisj (oid y)); [by apply list_elem_of_fmap_2|].
        rewrite <- Hid. by apply list_elem_of_fmap_2.
      * by rewrite (NoDup_fmap_elem_inj entry_id _ e (IndPlot y) Hinds He Hy Hid).
    + intros Hp. destruct e as [x|o]; [|done].
      exists x. split; [done|]. apply Hin. by right.
  - intros pl. unfold g. rewrite sortdataindicators_placed. unfold placed.
    rewrite fmap_app. apply NoDup_app. split; [|split].
    + eapply sublist_NoDup; [exact Hobs|]. apply fmap_sublist, sublist_filter.
    + intros i Hi1 Hi2.
      apply list_elem_of_fmap in Hi1 as (x & -> & Hx).
      apply list_elem_of_filter in Hx as [_ Hx].
      apply list_elem_of_fmap in Hi2 as (y & Hid & Hy).
      apply list_elem_of_omap in Hy as (e & He & Hy).
      destruct e as [z|o]; [|done]. case_decide; [|done]. injection Hy as ->.
      apply (Hdisj (oid x)); [by apply list_elem_of_fmap_2|].
      rewrite Hid. by apply (list_elem_of_fmap_2 entry_id _ (IndPlot y)).
    + eapply sublist_NoDup; [exact Hinds|].
      clear. induction (getindicators strategy) as [|e l IH]; [done|].
      cbn. destruct e as [x|o]; cbn.
      * case_decide; cbn; [by apply sublist_skip | by apply sublist_cons].
      * by apply sublist_cons.
Qed.

(** Two data feeds: the indicators on the first feed (directly, and
    through a stub) and the one on a stub of the second feed go under their
    own feed; nothing goes under the stub. *)
Lemma sortdataindicators_groups_witness :
  let g := sortdataindicators Ex.strategy_two in
  group g PTop = [Ex.cash]
  ∧ group g (POverlay 1%positive) = [Ex.sma; Ex.ema]
  ∧ group g (POverlay 11%positive) = [Ex.wma]
  ∧ group g (POverlay 13%positive) = []
  ∧ Ex.wma ∈ dget (dplotsover g) 11%positive
  ∧ (oid Ex.hidden ∈ oid <$> group g PTop ↔ place_observer Ex.hidden = Some PTop)
  ∧ NoDup (oid <$> group g (POverlay 1%positive)).
Proof.
  destruct (sortdataindicators_groups Ex.strategy_two) as (H1 & H2 & H3 & H4).
  assert (Hnd : NoDup (registry_ids Ex.strategy_two)).
  { apply (bool_decide_unpack _). vm_compute. exact I. }
  destruct (H4 Hnd) as (Ha & Hb & Hc).
  split; [apply (H1 PTop)|]. split; [apply (H1 (POverlay 1%positive))|].
  split; [apply (H1 (POverlay 11%positive))|].
  split; [apply (H1 (POverlay 13%positive))|].
  split.
  { apply (H3 Ex.wma); [|reflexivity].
    apply list_elem_of_In. do 4 right. left. reflexivity. }
  split; [apply Ha, list_elem_of_In; right; left; reflexivity | apply Hc].
Defined.

(** ** The skeleton of a run *)

Lemma bind_Ok {A B} (m : M A) (k : A → M B) s r :
  (m ≫= k) s = Ok r → ∃ a s1, m s = Ok (a, s1) ∧ k a s1 = Ok r.
Proof.
  unfold mbind, M_bind. destruct (m s) as [[a s1]|e]; [|done].
  intros H. by exists a, s1.
Qed.

Lemma lift_Ok {A} (r : Res A) s a s1 : lift r s = Ok (a, s1) → r = Ok a ∧ s1 = s.
Proof. unfold lift. destruct r; [|done]. intros H. by injection H as -> ->. Qed.

Lemma gets_Ok {A} (f : Plot → A) s a s1 : gets f s = Ok (a, s1) → a = f s ∧ s1 = s.
Proof. unfold gets. intros H. by injection H as <- <-. Qed.

Lemma keeps_bind {A B} (m : M A) (k : A → M B) :
  keeps_skel m → (∀ a, keeps_skel (k a)) → keeps_skel (m ≫= k).
Proof.
  intros Hm Hk s b s' H. apply bind_Ok in H as (a & s1 & H1 & H2).
  rewrite (Hk a _ _ _ H2). by apply (Hm _ _ _ H1).
Qed.

Lemma keeps_mret {A} (a : A) : keeps_skel (mret a).
Proof. intros s b s' H. by injection H as _ <-. Qed.

Lemma keeps_raise {A} e : keeps_skel (raise e : M A).
Proof. intros s b s' H. done. Qed.

Lemma keeps_lift {A} (r : Res A) : keeps_skel (lift r).
Proof. intros s b s' H. apply lift_Ok in H as [_ ->]. done. Qed.

Lemma keeps_gets {A} (f : Plot → A) : keeps_skel (gets f).
Proof. intros s b s' H. apply gets_Ok in H as [_ ->]. done. Qed.

Lemma keeps_forM {A} (l : list A) (f : A → M unit) :
  (∀ a, keeps_skel (f a)) → keeps_skel (forM_ l f).
Proof.
  intros Hf. induction l as [|a l IH]; cbn; [apply keeps_mret|].
  apply keeps_bind; [apply Hf | intros _; apply IH].
Qed.

Lemma keeps_forM_from {A} (l : list A) (f : nat → A → M unit) i :
  (∀ i a, keeps_skel (f i a)) → keeps_skel (forM_from i l f).
Proof.
  intros Hf. revert i. induction l as [|a l IH]; intros i; cbn; [apply keeps_mret|].
  apply keeps_bind; [apply Hf | intros _; apply IH].
Qed.

Lemma skel_set_axes_alter (f : Axes → Axes) (ax : nat) s :
  (∀ a, axes_skel (f a) = axes_skel a) →
  skel (set_axes (alter f ax) s) = skel s.
Proof.
  intros Hf. unfold skel; cbn. f_equal.
  rewrite (list_fmap_alter axes_skel f id); [by apply list_alter_id|].
  apply Forall_forall. intros a _. apply Hf.
Qed.

Lemma keeps_on_axes (f : Axes → Axes) ax :
  (∀ a, axes_skel (f a) = axes_skel a) → keeps_skel (on_axes ax f).
Proof.
  intros Hf s b s' H. injection H as _ <-. by apply skel_set_axes_alter.
Qed.

Lemma keeps_modify_pinf (f : PInfo → PInfo) :
  (∀ p, sch (f p) = sch p ∧ xreal (f p) = xreal p ∧ row (f p) = row p
        ∧ daxis (f p) = daxis p) →
  keeps_skel (modify (set_pinf f)).
Proof.
  intros Hf s b s' H. injection H as _ <-. unfold skel; cbn.
  destruct (Hf (pinf s)) as (-> & -> & -> & ->). done.
Qed.

Lemma keeps_drawtag ax x y fc ec : keeps_skel (drawtag ax x y fc ec).
Proof.
  unfold drawtag. apply keeps_bind; [apply keeps_gets|intros p].
  apply keeps_bind; [apply keeps_lift|intros z]. by apply keeps_on_axes.
Qed.

Lemma keeps_plotind_line bk ax masterax ind lineidx line :
  keeps_skel (plotind_line bk ax masterax ind lineidx line).
Proof.
  intros s [] s' H. rewrite plotind_line_eq in H.
  destruct (lp_plotskip _); [by injection H as <-|].
  destruct (last _) as [lastv|]; [|done]. injection H as <-.
  unfold line_result.
  assert (Hp : skel (set_pinf (λ _, set_zorder ax
                 (art_zorder (line_artist bk ax masterax ind lineidx line lastv (pinf s)))
                 (line_pinf ax (lineplotinfo line) (pinf s)))
               (set_axes (alter (add_artist
                 (line_artist bk ax masterax ind lineidx line lastv (pinf s))) ax) s))
             = skel s).
  { etrans; [|apply (skel_set_axes_alter (add_artist
       (line_artist bk ax masterax ind lineidx line lastv (pinf s))) ax s); done].
    unfold skel, line_pinf; cbn. by destruct (_ && _). }
  destruct (isnan lastv); [exact Hp|].
  by rewrite skel_set_axes_alter.
Qed.


Lemma keeps_plotind_over bk fuel ind subinds ax :
  keeps_skel (plotind bk fuel ind subinds (Some ax)).
Proof.
  revert ind subinds ax. induction fuel as [|fuel IH]; intros ind subinds ax;
    [apply keeps_raise|].
  cbn [plotind].
  apply keeps_bind; [apply keeps_mret|intros ax'].
  apply keeps_bind; [apply keeps_forM_from; intros; apply keeps_plotind_line|intros _].
  apply keeps_bind; [|intros _; apply keeps_mret].
  apply keeps_forM. intros subind.
  apply keeps_bind; [apply keeps_gets|intros over]. apply IH.
Qed.

(** The creation of a panel. *)
Lemma newaxis_Ok key rowspan s ax s' :
  newaxis key rowspan s = Ok (ax, s') →
  ax = length (fig_axes (fig s)) ∧ skel s' = sk_step (skel s) (SNew key rowspan).
Proof.
  intros H. injection H as <- <-. split; [done|].
  unfold skel, sk_step; cbn. by rewrite fmap_app, length_fmap.
Qed.

Lemma twinx_Ok axvol s ax s' :
  twinx axvol s = Ok (ax, s') →
  ax = length (fig_axes (fig s)) ∧ skel s' = sk_step (skel s) STwin.
Proof.
  intros H. injection H as <- <-. split; [done|].
  unfold skel, sk_step; cbn. by rewrite fmap_app.
Qed.


Lemma plotvolume_skel bk data opens highs lows closes volumes label s v s' :
  plotvolume bk data opens highs lows closes volumes label s = Ok (v, s') →
  skel s' = sk_step (skel s)
    (SNew (KVolume (d_id data))
       (if voloverlay (sch (pinf s)) then rowsmajor (sch (pinf s))
        else rowsminor (sch (pinf s)))).
Proof.
  unfold plotvolume. intros H.
  apply bind_Ok in H as (p & s0 & Hp & H). apply gets_Ok in Hp as [-> ->].
  apply bind_Ok in H as (ax & s1 & Hn & H). apply newaxis_Ok in Hn as [-> Hn].
  rewrite <- Hn. revert H.
  apply keeps_bind; [by apply keeps_on_axes|intros _].
  apply keeps_bind; [destruct volumes; [apply keeps_raise|apply keeps_mret]|intros _].
  apply keeps_bind; [|intros _; apply keeps_mret].
  destruct (voloverlay _).
  - destruct (Qeq_bool _ _); [apply keeps_raise|apply keeps_mret].
  - apply keeps_bind; [apply keeps_gets|intros hl].
    destruct (hl.1); [apply keeps_mret|]. by apply keeps_on_axes.
Qed.






(** What [plotdata] does: the axes it creates, and the legend it sets at
    the end on the price axes from the entries found there. *)
Lemma plotdata_Ok bk fuel data indicators s s' :
  plotdata bk fuel data indicators s = Ok (tt, s') →
  ∃ datalabel volplot s_mid,
    datalabel_of bk data (d_open data) (d_high data) (d_low data) (d_close data)
      = Ok datalabel
    ∧ skel s_mid = foldl sk_step (skel s) (data_steps (sch (pinf s)) data)
    ∧ skel s' = skel s_mid
    ∧ let sc := sch (pinf s) in
      let ax := price_axes s in
      let hl := get_legend_handles_labels ax s_mid in
      match hl.1 with
      | [] => s' = s_mid
      | _ :: _ =>
          ∃ hl',
            legend_order (volume sc && voloverlay sc) volplot "Volume" datalabel
              hl.1 hl.2 = Ok hl'
            ∧ s' = set_axes (alter (set_legend
                     {| lg_handles := hl'.1; lg_labels := hl'.2;
                        lg_loc := "upper left"; lg_title := None |}) ax) s_mid
      end.
Proof.
  unfold plotdata. intros H.
  apply bind_Ok in H as (p & s0 & Hp & H). apply gets_Ok in Hp as [-> ->].
  apply bind_Ok in H as ([ax volplot] & s1 & Hstart & H).
  assert (Hax : ax = price_axes s ∧
    skel s1 = foldl sk_step (skel s)
      (if volume (sch (pinf s)) && voloverlay (sch (pinf s))
       then [SNew (KVolume (d_id data)) (rowsmajor (sch (pinf s))); STwin]
       else [SNew (KObj (d_id data)) (rowsmajor (sch (pinf s)))])).
  { unfold price_axes. destruct (volume _ && voloverlay _) eqn:E.
    - apply andb_true_iff in E as [_ Eo].
      apply bind_Ok in Hstart as (vp & s2 & Hv & Hstart).
      apply plotvolume_skel in Hv. rewrite Eo in Hv.
      apply bind_Ok in Hstart as (p & s3 & Hp & Hstart). apply gets_Ok in Hp as [-> ->].
      apply bind_Ok in Hstart as (axvol & s3 & Hl & Hstart). apply lift_Ok in Hl as [_ ->].
      apply bind_Ok in Hstart as (ax' & s3 & Ht & Hstart).
      injection Hstart as -> _ ->. apply twinx_Ok in Ht as [-> Ht].
      split; [|cbn; by rewrite Ht, Hv].
      apply (f_equal (λ k, length (sk_axes k))) in Hv. cbn in Hv.
      rewrite length_app, !length_fmap in Hv. cbn in Hv. lia.
    - apply bind_Ok in Hstart as (ax' & s2 & Hn & Hstart).
      injection Hstart as -> _ ->. apply newaxis_Ok in Hn as [-> Hn].
      split; [done|]. cbn. by rewrite Hn. }
  destruct Hax as [-> Hs1]. cbn [fst snd] in H.
  apply bind_Ok in H as (datalabel & s2 & Hd & H). apply lift_Ok in Hd as [Hd ->].
  apply bind_Ok in H as (renderer & s2 & Hr & H). apply lift_Ok in Hr as [Hr ->].
  apply bind_Ok in H as ([] & s2 & H2 & H).
  apply (keeps_on_axes (add_artist _) _ (λ _, eq_refl)) in H2.
  apply bind_Ok in H as ([] & s3 & H3 & H).
  apply (keeps_modify_pinf (set_zorder _ _)
           (λ _, conj eq_refl (conj eq_refl (conj eq_refl eq_refl)))) in H3.
  apply bind_Ok in H as (c & s4 & Hc & H). apply lift_Ok in Hc as [Hc ->].
  apply bind_Ok in H as ([] & s4 & H4 & H). apply keeps_drawtag in H4.
  apply bind_Ok in H as ([] & s5 & H5 & H).
  assert (Hs5 : skel s5 = foldl sk_step (skel s) (data_steps (sch (pinf s)) data)).
  { assert (Hs4 : skel s4 = skel s1) by (by rewrite H4, H3, H2).
    unfold data_steps. rewrite <- Hs4 in Hs1.
    destruct (volume (sch (pinf s))) eqn:Ev; [destruct (voloverlay (sch (pinf s))) eqn:Eo|];
      cbn [andb negb] in *.
    - injection H5 as <-. exact Hs1.
    - apply bind_Ok in H5 as (v & s6 & Hv & H5). injection H5 as <-.
      apply plotvolume_skel in Hv.
      assert (Hsch : sch (pinf s4) = sch (pinf s)).
      { apply (f_equal sk_sch) in Hs1. cbn in Hs1. exact Hs1. }
      rewrite Hsch, Eo, Hs1 in Hv. exact Hv.
    - injection H5 as <-. exact Hs1. }
  apply bind_Ok in H as ([] & s6 & H6 & H).
  assert (Hs6 : skel s6 = skel s5).
  { revert H6. apply keeps_forM. intros ind.
    apply keeps_bind; [apply keeps_gets|intros over]. apply keeps_plotind_over. }
  apply bind_Ok in H as (hl & s7 & H7 & H). apply gets_Ok in H7 as [-> ->].
  exists datalabel, volplot, s6.
  split; [exact Hd|]. split; [by rewrite Hs6|].
  cbn zeta.
  destruct (get_legend_handles_labels (price_axes s) s6).1 as [|h hs] eqn:Eh.
  - injection H as <-. done.
  - apply bind_Ok in H as (hl' & s8 & H8 & H). apply lift_Ok in H8 as [H8 ->].
    injection H as <-. split; [by apply skel_set_axes_alter|].
    by exists hl'.
Qed.
Lemma list_index_Ok x l i :
  list_index x l = Ok i → l !! i = Some x ∧ delete i l = remove_first x l.
Proof.
  revert i. induction l as [|y l IH]; intros i; cbn; [done|].
  destruct (decide (y = x)) as [->|Hne].
  - intros H. by injection H as <-.
  - destruct (list_index x l) as [n|] eqn:E; [|done]. cbn.
    intros H. injection H as <-. destruct (IH n eq_refl) as [H1 H2].
    split; [exact H1|]. change (delete (S n) (y :: l)) with (y :: delete n l).
    by rewrite H2.
Qed.

(** The labels that [legend_order] returns: the price label, then the
    other labels in the order received, the volume label first among them
    when volume is overlaid. *)
Lemma legend_order_labels overlaid volplot vollabel datalabel handles labels hl :
  legend_order overlaid volplot vollabel datalabel handles labels = Ok hl →
  hl.2 = datalabel
         :: remove_first datalabel (if overlaid then vollabel :: labels else labels).
Proof.
  unfold legend_order. intros H.
  destruct (list_index datalabel _) as [didx|] eqn:E; [|done].
  cbn in H. injection H as <-. cbn.
  apply list_index_Ok in E as [E1 E2]. unfold pop_insert0. by rewrite E1, E2.
Qed.

Lemma has_space_app a b : has_space (a +:+ b) = has_space a || has_space b.
Proof.
  induction a as [|c a IH]; [done|].
  change (has_space (String c (a +:+ b)) = has_space (String c a) || has_space b).
  cbn [has_space]. by rewrite IH, orb_assoc.
Qed.

Lemma datalabel_has_space bk data opens highs lows closes datalabel :
  datalabel_of bk data opens highs lows closes = Ok datalabel →
  has_space datalabel = true.
Proof.
  unfold datalabel_of. intros H.
  destruct (last_item opens) as [o|]; [|done].
  destruct (last_item highs) as [h|]; [|done].
  destruct (last_item lows) as [l|]; [|done].
  destruct (last_item closes) as [c|]; [|done].
  cbn in H. injection H as <-.
  rewrite has_space_app. apply orb_true_iff. right. reflexivity.
Qed.

Lemma get_legend_set_legend ax ax' l s :
  get_legend_handles_labels ax (set_axes (alter (set_legend l) ax') s)
  = get_legend_handles_labels ax s.
Proof.
  unfold get_legend_handles_labels. rewrite fig_axes_set_axes.
  destruct (decide (ax' = ax)) as [->|Hne].
  - rewrite list_lookup_alter_eq. by destruct (fig_axes (fig s) !! ax).
  - by rewrite list_lookup_alter_ne.
Qed.

(** C1, amended: when [plotdata] has drawn a data feed and the price axes
    has legend entries, the legend of the price axes lists the label of
    the price series first; when volume is overlaid the volume label comes
    second, right after it; the other entries follow in the order in
    which matplotlib reports them. *)
Theorem plotdata_legend_order (bk : Backend) (fuel : nat) (data : Data)
    (indicators : list Plottable) (s s' : Plot) :
  plotdata bk fuel data indicators s = Ok (tt, s') →
  let sc := sch (pinf s) in
  let ax := price_axes s in
  let labels := (get_legend_handles_labels ax s').2 in
  labels ≠ [] →
  ∃ datalabel,
    datalabel_of bk data (d_open data) (d_high data) (d_low data) (d_close data)
      = Ok datalabel
    ∧ datalabel ≠ "Volume"
    ∧ lg_labels <$> legend_on ax s'
      = Some (datalabel
              :: (if volume sc && voloverlay sc then ["Volume"] else [])
              ++ remove_first datalabel labels).
Proof.
  intros H sc ax labels Hne.
  apply plotdata_Ok in H as (datalabel & volplot & s_mid & Hd & _ & _ & H).
  cbn zeta in H. fold ax sc in H.
  assert (Hvol : datalabel ≠ "Volume").
  { intros ->. by apply datalabel_has_space in Hd. }
  exists datalabel. split; [exact Hd|]. split; [exact Hvol|].
  destruct (get_legend_handles_labels ax s_mid).1 as [|h hs] eqn:Eh.
  - subst s'. exfalso. apply Hne. unfold labels.
    unfold get_legend_handles_labels in *. cbn in *. by rewrite Eh.
  - destruct H as (hl' & Ho & ->).
    apply legend_order_labels in Ho.
    unfold labels. rewrite get_legend_set_legend.
    unfold legend_on. rewrite fig_axes_set_axes, list_lookup_alter_eq.
    destruct (fig_axes (fig s_mid) !! ax) as [a|] eqn:Ea.
    2:{ unfold get_legend_handles_labels in Eh. by rewrite Ea in Eh. }
    cbn. rewrite Ho. f_equal.
    destruct (volume sc && voloverlay sc); [|done].
    cbn. by rewrite decide_False by done.
Qed.

Lemma plotdata_legend_order_witness :
  ∃ s',
    plotdata Ex.backend 5 Ex.data1 [Ex.sma] Ex.state0 = Ok (tt, s')
    ∧ lg_labels <$> legend_on 1%nat s'
      = Some ["D (1 Day) O:1.00 H: 2 L:0.50 C:1.50"; "Volume"; "SMA 1.25"].
Proof.
  destruct (plotdata Ex.backend 5 Ex.data1 [Ex.sma] Ex.state0) as [[[] s']|] eqn:E;
    [|vm_compute in E; discriminate].
  exists s'. split; [reflexivity|].
  assert (Hl : (λ r, match r with
                     | Ok (_, s') => (get_legend_handles_labels 1%nat s').2
                     | Raise _ => []
                     end) (plotdata Ex.backend 5 Ex.data1 [Ex.sma] Ex.state0)
               = ["SMA 1.25"; "D (1 Day) O:1.00 H: 2 L:0.50 C:1.50"])
    by (vm_compute; reflexivity).
  rewrite E in Hl. cbn beta iota in Hl.
  destruct (plotdata_legend_order Ex.backend 5 Ex.data1 [Ex.sma] Ex.state0 s' E)
    as (datalabel & Hd & _ & H).
  { change (price_axes Ex.state0) with 1%nat. by rewrite Hl. }
  change (price_axes Ex.state0) with 1%nat in H. rewrite Hl in H.
  vm_compute in Hd. injection Hd as <-. exact H.
Defined.

(** C1 as stated fails: with volume overlaid, the legend of the price axes
    of a data feed with one indicator drawn over it starts with the label
    of the price series; the volume label is the second entry. *)
Lemma plot_legend_volume_second :
  volume Ex.scheme && voloverlay Ex.scheme = true
  ∧ ∃ w f a lg,
      plot Ex.backend 5 Ex.scheme Ex.strategy_sma Ex.world0 = Ok w
      ∧ figure0 w = Some f
      ∧ fig_axes f !! 1%nat = Some a
      ∧ ax_legend a = Some lg
      ∧ lg_labels lg = ["D (1 Day) O:1.00 H: 2 L:0.50 C:1.50"; "Volume"; "SMA 1.25"]
      ∧ head (lg_labels lg) ≠ Some "Volume".
Proof.
  split; [reflexivity|].
  destruct (plot Ex.backend 5 Ex.scheme Ex.strategy_sma Ex.world0)
    as [[r [f|]]|] eqn:E; try (vm_compute in E; discriminate).
  assert (H : (λ r, match r with
                    | Ok {| figure0 := Some f |} =>
                        lg_labels <$> (fig_axes f !! 1%nat ≫= ax_legend)
                    | _ => None
                    end) (plot Ex.backend 5 Ex.scheme Ex.strategy_sma Ex.world0)
              = Some ["D (1 Day) O:1.00 H: 2 L:0.50 C:1.50"; "Volume"; "SMA 1.25"])
    by (vm_compute; reflexivity).
  rewrite E in H. cbn beta iota in H.
  destruct (fig_axes f !! 1%nat) as [a|] eqn:Ea; [|done]. cbn in H.
  destruct (ax_legend a) as [lg|] eqn:El; [|done]. cbn in H. injection H as H.
  exists {| self_run := r; figure0 := Some f |}, f, a, lg.
  repeat (split; [done|]). rewrite H. done.
Qed.

(** ** The renderer of the price *)

Lemma grows_bind {A B} (m : M A) (k : A → M B) :
  grows_artists m → (∀ a, grows_artists (k a)) → grows_artists (m ≫= k).
Proof.
  intros Hm Hk s b s' H ax. apply bind_Ok in H as (a & s1 & H1 & H2).
  etrans; [apply (Hm _ _ _ H1)|apply (Hk a _ _ _ H2)].
Qed.

Lemma grows_mret {A} (a : A) : grows_artists (mret a).
Proof. intros s b s' H ax. by injection H as _ <-. Qed.

Lemma grows_raise {A} e : grows_artists (raise e : M A).
Proof. intros s b s' H. done. Qed.

Lemma grows_lift {A} (r : Res A) : grows_artists (lift r).
Proof. intros s b s' H ax. apply lift_Ok in H as [_ ->]. done. Qed.

Lemma grows_gets {A} (f : Plot → A) : grows_artists (gets f).
Proof. intros s b s' H ax. apply gets_Ok in H as [_ ->]. done. Qed.

Lemma grows_forM {A} (l : list A) (f : A → M unit) :
  (∀ a, grows_artists (f a)) → grows_artists (forM_ l f).
Proof.
  intros Hf. induction l as [|a l IH]; cbn; [apply grows_mret|].
  apply grows_bind; [apply Hf | intros _; apply IH].
Qed.

Lemma grows_forM_from {A} (l : list A) (f : nat → A → M unit) i :
  (∀ i a, grows_artists (f i a)) → grows_artists (forM_from i l f).
Proof.
  intros Hf. revert i. induction l as [|a l IH]; intros i; cbn; [apply grows_mret|].
  apply grows_bind; [apply Hf | intros _; apply IH].
Qed.

Lemma grows_on_axes (f : Axes → Axes) ax :
  (∀ a, ax_artists a `prefix_of` ax_artists (f a)) → grows_artists (on_axes ax f).
Proof.
  intros Hf s b s' H ax'. injection H as _ <-.
  unfold artists_on. rewrite fig_axes_set_axes.
  destruct (decide (ax = ax')) as [->|Hne].
  - rewrite list_lookup_alter_eq. destruct (fig_axes (fig s) !! ax'); cbn; [apply Hf|done].
  - by rewrite list_lookup_alter_ne.
Qed.

Lemma grows_modify_pinf (f : PInfo → PInfo) : grows_artists (modify (set_pinf f)).
Proof. intros s b s' H ax. by injection H as _ <-. Qed.

Lemma grows_new_axes (x : Axes) :
  grows_artists (modify (set_axes (λ axes, axes ++ [x]))).
Proof.
  intros s b s' H ax. injection H as _ <-.
  unfold artists_on. rewrite fig_axes_set_axes.
  destruct (fig_axes (fig s) !! ax) as [a|] eqn:E.
  - by rewrite (lookup_app_l_Some _ _ _ _ E).
  - apply prefix_nil.
Qed.

Lemma grows_newaxis key rowspan : grows_artists (newaxis key rowspan).
Proof.
  unfold newaxis. apply grows_bind; [apply grows_gets|intros p].
  apply grows_bind; [apply grows_gets|intros ax].
  apply grows_bind; [apply grows_new_axes|intros _].
  apply grows_bind; [apply grows_modify_pinf|intros _]. apply grows_mret.
Qed.

Lemma grows_twinx axvol : grows_artists (twinx axvol).
Proof.
  unfold twinx. apply grows_bind; [apply grows_gets|intros ax].
  apply grows_bind; [apply grows_new_axes|intros _]. apply grows_mret.
Qed.

Lemma grows_drawtag ax x y fc ec : grows_artists (drawtag ax x y fc ec).
Proof.
  unfold drawtag. apply grows_bind; [apply grows_gets|intros p].
  apply grows_bind; [apply grows_lift|intros z]. by apply grows_on_axes.
Qed.

Lemma grows_add_artist art ax : grows_artists (on_axes ax (add_artist art)).
Proof. apply grows_on_axes. intros a. by apply prefix_app_r. Qed.

Lemma grows_plotind_line bk ax masterax ind lineidx line :
  grows_artists (plotind_line bk ax masterax ind lineidx line).
Proof.
  unfold plotind_line. destruct (lp_plotskip _); [apply grows_mret|].
  apply grows_bind; [apply grows_lift|intros lastv].
  apply grows_bind.
  { destruct (kw_is_none _ _); [|apply grows_mret].
    apply grows_bind; [destruct (negb _); [apply grows_modify_pinf|apply grows_mret]|].
    intros _. apply grows_bind; [apply grows_gets|intros c]. apply grows_mret. }
  intros kw. apply grows_bind; [apply grows_gets|intros p].
  apply grows_bind.
  { destruct (zorder p !! ax); [|apply grows_mret].
    apply grows_bind; [apply grows_lift|intros z]. apply grows_mret. }
  intros kw'. apply grows_bind; [apply grows_add_artist|intros _].
  apply grows_bind; [apply grows_modify_pinf|intros _].
  destruct (negb _); [|apply grows_mret].
  apply grows_bind; [apply grows_gets|intros c]. apply grows_drawtag.
Qed.

Lemma grows_plotind_finish ax ind : grows_artists (plotind_finish ax ind).
Proof.
  unfold plotind_finish.
  apply grows_bind; [by apply grows_on_axes|intros _].
  apply grows_bind; [apply grows_forM; intros h; by apply grows_on_axes|intros _].
  apply grows_bind; [apply grows_gets|intros p].
  destruct (_ && _); [|apply grows_mret].
  apply grows_bind; [apply grows_gets|intros hl].
  destruct (hl.2); [apply grows_mret|]. by apply grows_on_axes.
Qed.

Lemma grows_plotind bk fuel ind subinds masterax :
  grows_artists (plotind bk fuel ind subinds masterax).
Proof.
  revert ind subinds masterax.
  induction fuel as [|fuel IH]; intros ind subinds masterax; [apply grows_raise|].
  cbn [plotind].
  apply grows_bind.
  { destruct masterax; [apply grows_mret|].
    apply grows_bind; [apply grows_gets|intros p]. apply grows_newaxis. }
  intros ax.
  apply grows_bind; [apply grows_forM_from; intros; apply grows_plotind_line|intros _].
  apply grows_bind.
  { apply grows_forM. intros subind.
    apply grows_bind; [apply grows_gets|intros over]. apply IH. }
  intros _. destruct masterax; [apply grows_mret|apply grows_plotind_finish].
Qed.

Lemma grows_plotvolume bk data opens highs lows closes volumes label :
  grows_artists (plotvolume bk data opens highs lows closes volumes label).
Proof.
  unfold plotvolume. apply grows_bind; [apply grows_gets|intros p].
  apply grows_bind; [apply grows_newaxis|intros ax].
  apply grows_bind; [apply grows_add_artist|intros _].
  apply grows_bind; [destruct volumes; [apply grows_raise|apply grows_mret]|intros _].
  apply grows_bind; [|intros _; apply grows_mret].
  destruct (voloverlay _).
  - destruct (Qeq_bool _ _); [apply grows_raise|apply grows_mret].
  - apply grows_bind; [apply grows_gets|intros hl].
    destruct (hl.1); [apply grows_mret|]. by apply grows_on_axes.
Qed.

Lemma no_raise_bind {A B} e (m : M A) (k : A → M B) :
  no_raise e m → (∀ a, no_raise e (k a)) → no_raise e (m ≫= k).
Proof.
  intros Hm Hk s. unfold mbind, M_bind.
  destruct (m s) as [[a s1]|e'] eqn:E; [apply Hk|].
  intros H. injection H as ->. by apply (Hm s).
Qed.

Lemma no_raise_mret {A} e (a : A) : no_raise e (mret a).
Proof. intros s. done. Qed.

Lemma no_raise_gets {A} e (f : Plot → A) : no_raise e (gets f).
Proof. intros s. done. Qed.

Lemma no_raise_modify e f : no_raise e (modify f).
Proof. intros s. done. Qed.

Lemma no_raise_on_axes e ax f : no_raise e (on_axes ax f).
Proof. intros s. done. Qed.

Lemma no_raise_raise {A} e e' : e' ≠ e → no_raise e (raise e' : M A).
Proof. intros Hne s H. injection H as ->. done. Qed.

Lemma no_raise_lift {A} e (r : Res A) : r ≠ Raise e → no_raise e (lift r).
Proof. intros Hr s. unfold lift. destruct r; [done|]. congruence. Qed.

Lemma no_raise_forM {A} e (l : list A) (f : A → M unit) :
  (∀ a, no_raise e (f a)) → no_raise e (forM_ l f).
Proof.
  intros Hf. induction l as [|a l IH]; cbn; [apply no_raise_mret|].
  apply no_raise_bind; [apply Hf | intros _; apply IH].
Qed.

Lemma last_item_raises {A} (l : list A) e : last_item l = Raise e → e = IndexError.
Proof. unfold last_item. destruct (last l); [done|]. by intros [= <-]. Qed.

Lemma odict_get_raises d k e : odict_get d k = Raise e → e = KeyError.
Proof.
  induction d as [|[k' v'] d IH]; cbn; [by intros [= <-]|].
  destruct (decide (k' = k)); [done|exact IH].
Qed.

Lemma list_index_raises x l e : list_index x l = Raise e → e = ValueError.
Proof.
  induction l as [|y l IH]; cbn; [by intros [= <-]|].
  destruct (decide (y = x)); [done|].
  destruct (list_index x l); [done|]. cbn. intros [= <-]. by apply IH.
Qed.

Lemma price_renderer_Ok style :
  price_renderer style =
    Ok (if String.prefix "line" style then LineOnClose
        else if String.prefix "candle" style then Candlestick
        else OHLCBars).
Proof.
  unfold price_renderer.
  destruct (String.prefix "line" style); [reflexivity|].
  destruct (String.prefix "candle" style); [reflexivity|].
  by rewrite orb_true_r.
Qed.

Lemma no_NameError_newaxis key rowspan : no_raise NameError (newaxis key rowspan).
Proof. intros s. done. Qed.

Lemma no_NameError_plotind bk fuel ind subinds masterax :
  no_raise NameError (plotind bk fuel ind subinds masterax).
Proof.
  revert ind subinds masterax.
  induction fuel as [|fuel IH]; intros ind subinds masterax;
    [by apply no_raise_raise|].
  cbn [plotind].
  apply no_raise_bind.
  { destruct masterax; [apply no_raise_mret|].
    apply no_raise_bind; [apply no_raise_gets|intros p]. apply no_NameError_newaxis. }
  intros ax. apply no_raise_bind.
  { generalize 0%nat. induction (lines ind) as [|line ls IHl]; intros i; cbn;
      [apply no_raise_mret|].
    apply no_raise_bind; [|intros _; apply IHl].
    intros s. rewrite plotind_line_eq.
    destruct (lp_plotskip _); [done|]. by destruct (last _). }
  intros _. apply no_raise_bind.
  { apply no_raise_forM. intros subind.
    apply no_raise_bind; [apply no_raise_gets|intros over]. apply IH. }
  intros _. destruct masterax; [apply no_raise_mret|].
  unfold plotind_finish.
  apply no_raise_bind; [apply no_raise_on_axes|intros _].
  apply no_raise_bind; [apply no_raise_forM; intros; apply no_raise_on_axes|intros _].
  apply no_raise_bind; [apply no_raise_gets|intros p].
  destruct (_ && _); [|apply no_raise_mret].
  apply no_raise_bind; [apply no_raise_gets|intros hl].
  destruct (hl.2); [apply no_raise_mret|apply no_raise_on_axes].
Qed.

Lemma no_NameError_plotvolume bk data opens highs lows closes volumes label :
  no_raise NameError (plotvolume bk data opens highs lows closes volumes label).
Proof.
  unfold plotvolume. apply no_raise_bind; [apply no_raise_gets|intros p].
  apply no_raise_bind; [apply no_NameError_newaxis|intros ax].
  apply no_raise_bind; [apply no_raise_on_axes|intros _].
  apply no_raise_bind;
    [destruct volumes; [by apply no_raise_raise|apply no_raise_mret]|intros _].
  apply no_raise_bind; [|intros _; apply no_raise_mret].
  destruct (voloverlay _).
  - destruct (Qeq_bool _ _); [by apply no_raise_raise|apply no_raise_mret].
  - apply no_raise_bind; [apply no_raise_gets|intros hl].
    destruct (hl.1); [apply no_raise_mret|apply no_raise_on_axes].
Qed.

Lemma no_NameError_drawtag ax x y fc ec : no_raise NameError (drawtag ax x y fc ec).
Proof.
  unfold drawtag. apply no_raise_bind; [apply no_raise_gets|intros p].
  apply no_raise_bind; [|intros z; apply no_raise_on_axes].
  apply no_raise_lift. unfold zordercur. by destruct (_ !! _).
Qed.

Lemma no_NameError_plotdata bk fuel data indicators :
  no_raise NameError (plotdata bk fuel data indicators).
Proof.
  unfold plotdata. apply no_raise_bind; [apply no_raise_gets|intros p].
  apply no_raise_bind.
  { destruct (_ && _).
    - apply no_raise_bind; [apply no_NameError_plotvolume|intros v].
      apply no_raise_bind; [apply no_raise_gets|intros p'].
      apply no_raise_bind.
      { apply no_raise_lift. intros H. by apply odict_get_raises in H. }
      intros axvol. apply no_raise_bind; [by intros s|intros ax]. apply no_raise_mret.
    - apply no_raise_bind; [apply no_NameError_newaxis|intros ax]. apply no_raise_mret. }
  intros axv. apply no_raise_bind.
  { apply no_raise_lift. unfold datalabel_of. intros H.
    destruct (last_item (d_open data)) eqn:E1; cbn in H;
      [|injection H as ->; by apply last_item_raises in E1].
    destruct (last_item (d_high data)) eqn:E2; cbn in H;
      [|injection H as ->; by apply last_item_raises in E2].
    destruct (last_item (d_low data)) eqn:E3; cbn in H;
      [|injection H as ->; by apply last_item_raises in E3].
    destruct (last_item (d_close data)) eqn:E4; cbn in H;
      [done|injection H as ->; by apply last_item_raises in E4]. }
  intros datalabel. apply no_raise_bind.
  { apply no_raise_lift. by rewrite price_renderer_Ok. }
  intros renderer. apply no_raise_bind; [apply no_raise_on_axes|intros _].
  apply no_raise_bind; [apply no_raise_modify|intros _].
  apply no_raise_bind.
  { apply no_raise_lift. intros H. by apply last_item_raises in H. }
  intros c. apply no_raise_bind; [apply no_NameError_drawtag|intros _].
  apply no_raise_bind.
  { destruct (volume _); [|apply no_raise_mret].
    destruct (negb _); [|apply no_raise_mret].
    apply no_raise_bind; [apply no_NameError_plotvolume|intros _]. apply no_raise_mret. }
  intros _. apply no_raise_bind.
  { apply no_raise_forM. intros ind.
    apply no_raise_bind; [apply no_raise_gets|intros over].
    apply no_NameError_plotind. }
  intros _. apply no_raise_bind; [apply no_raise_gets|intros hl].
  destruct (hl.1); [apply no_raise_mret|].
  apply no_raise_bind; [|intros hl'; apply no_raise_on_axes].
  apply no_raise_lift. unfold legend_order. intros H.
  destruct (list_index _ _) eqn:E; cbn in H; [done|].
  injection H as ->. by apply list_index_raises in E.
Qed.

(** The first artifact on the price axes is the price, drawn by the
    renderer of the style. *)
Lemma plotdata_price_artist bk fuel data indicators s s' :
  plotdata bk fuel data indicators s = Ok (tt, s') →
  ∃ art rest,
    artists_on (price_axes s) s' = art :: rest
    ∧ art_method art =
        match price_renderer (style (sch (pinf s))) with
        | Ok LineOnClose => "plot_lineonclose"
        | Ok Candlestick => "plot_candlestick"
        | Ok OHLCBars => "plot_ohlc"
        | Raise _ => ""
        end
    ∧ art_data art = d_close data
    ∧ datalabel_of bk data (d_open data) (d_high data) (d_low data) (d_close data)
      = Ok (art_label art).
Proof.
  unfold plotdata. intros H.
  apply bind_Ok in H as (p & s0 & Hp & H). apply gets_Ok in Hp as [-> ->].
  apply bind_Ok in H as ([ax volplot] & s1 & Hstart & H).
  assert (Hax : ax = price_axes s ∧ artists_on ax s1 = []
                ∧ is_Some (fig_axes (fig s1) !! ax)).
  { unfold price_axes. destruct (volume _ && voloverlay _) eqn:E.
    - apply bind_Ok in Hstart as (vp & s2 & Hv & Hstart).
      apply plotvolume_skel in Hv.
      apply bind_Ok in Hstart as (p & s3 & Hp & Hstart). apply gets_Ok in Hp as [-> ->].
      apply bind_Ok in Hstart as (axvol & s3 & Hl & Hstart). apply lift_Ok in Hl as [_ ->].
      apply bind_Ok in Hstart as (ax' & s3 & Ht & Hstart).
      injection Hstart as -> _ ->. injection Ht as <- <-.
      split.
      { apply (f_equal (λ k, length (sk_axes k))) in Hv. cbn in Hv.
        rewrite length_app, !length_fmap in Hv. cbn in Hv. lia. }
      unfold artists_on. rewrite fig_axes_set_axes.
      rewrite lookup_app_r, Nat.sub_diag by done. split; [done|by eexists].
    - apply bind_Ok in Hstart as (ax' & s2 & Hn & Hstart).
      injection Hstart as -> _ ->. injection Hn as <- <-.
      split; [done|]. unfold artists_on. cbn.
      rewrite lookup_app_r, Nat.sub_diag by done. split; [done|by eexists]. }
  destruct Hax as (-> & Hempty & [a0 Ha0]). cbn [fst snd] in H.
  apply bind_Ok in H as (datalabel & s2 & Hd & H). apply lift_Ok in Hd as [Hd ->].
  apply bind_Ok in H as (renderer & s2 & Hr & H). apply lift_Ok in Hr as [Hr ->].
  apply bind_Ok in H as ([] & s2 & H2 & H).
  injection H2 as <-.
  match type of H with
  | (_ ≫= _) (set_axes (alter (add_artist ?art) _) _) = _ =>
      set (plotted := art) in *
  end.
  assert (Hfirst : artists_on (price_axes s)
                     (set_axes (alter (add_artist plotted) (price_axes s)) s1)
                   = [plotted]).
  { unfold artists_on in *. rewrite fig_axes_set_axes, list_lookup_alter_eq, Ha0.
    rewrite Ha0 in Hempty. cbn in *. by rewrite Hempty. }
  assert (Hgrow : [plotted] `prefix_of` artists_on (price_axes s) s').
  { rewrite <- Hfirst. revert H.
    generalize (set_axes (alter (add_artist plotted) (price_axes s)) s1).
    intros t H. revert H.
    match goal with
    | |- ?m t = Ok (tt, s') → _ =>
        assert (Hg : grows_artists m); [|intros H; exact (Hg t tt s' H (price_axes s))]
    end.
    apply grows_bind; [apply grows_modify_pinf|intros _].
    apply grows_bind; [apply grows_lift|intros c].
    apply grows_bind; [apply grows_drawtag|intros _].
    apply grows_bind.
    { destruct (volume _); [|apply grows_mret].
      destruct (negb _); [|apply grows_mret].
      apply grows_bind; [apply grows_plotvolume|intros _]. apply grows_mret. }
    intros _. apply grows_bind.
    { apply grows_forM. intros ind.
      apply grows_bind; [apply grows_gets|intros over]. apply grows_plotind. }
    intros _. apply grows_bind; [apply grows_gets|intros hl].
    destruct (hl.1); [apply grows_mret|].
    apply grows_bind; [apply grows_lift|intros hl'].
    by apply grows_on_axes. }
  destruct Hgrow as [rest Hrest]. exists plotted, rest.
  split; [exact Hrest|]. rewrite Hr.
  unfold plotted. destruct renderer; cbn; (split; [done|]); (split; [done|]);
    rewrite Hd; f_equal; unfold art_label; cbn;
    rewrite ?lookup_insert_ne by done; by rewrite lookup_singleton_eq.
Qed.

(** C5: whatever the style, [plotdata] does not fail for want of a
    renderer, and when it returns, the price, the first artifact on the
    price axes, has been drawn by the close-only line renderer for a style
    starting with "line", by the candlestick renderer for one starting
    with "candle", and by the OHLC-bar renderer for every other style. *)
Theorem plotdata_price_style (bk : Backend) (fuel : nat) (data : Data)
    (indicators : list Plottable) (s : Plot) :
  let st := style (sch (pinf s)) in
  plotdata bk fuel data indicators s ≠ Raise NameError
  ∧ ∀ s', plotdata bk fuel data indicators s = Ok (tt, s') →
      ∃ art rest,
        artists_on (price_axes s) s' = art :: rest
        ∧ art_data art = d_close data
        ∧ art_method art =
            if String.prefix "line" st then "plot_lineonclose"
            else if String.prefix "candle" st then "plot_candlestick"
            else "plot_ohlc".
Proof.
  intros st. split; [apply no_NameError_plotdata|].
  intros s' H. apply plotdata_price_artist in H as (art & rest & H1 & H2 & H3 & _).
  exists art, rest. split; [done|]. split; [done|].
  rewrite H2, price_renderer_Ok. fold st.
  destruct (String.prefix "line" st); [done|].
  by destruct (String.prefix "candle" st).
Qed.

(** With the style "area" the price is drawn as OHLC bars. *)
Lemma plotdata_price_style_witness :
  ∃ s' art rest,
    plotdata Ex.backend 5 Ex.data1 [Ex.sma] Ex.state_area = Ok (tt, s')
    ∧ artists_on 0%nat s' = art :: rest
    ∧ art_method art = "plot_ohlc".
Proof.
  destruct (plotdata Ex.backend 5 Ex.data1 [Ex.sma] Ex.state_area)
    as [[[] s']|] eqn:E; [|vm_compute in E; discriminate].
  destruct (plotdata_price_style Ex.backend 5 Ex.data1 [Ex.sma] Ex.state_area)
    as [_ H].
  destruct (H s' E) as (art & rest & H1 & _ & H2).
  by exists s', art, rest.
Defined.

(** ** The panels created by a composition *)















(** ** The x axis labels *)



(** * Further properties of the code *)

(** ** Panels and overlays in [plotind] *)







(** ** Errors and colors of one line *)



